(** * The agent's configuration resolution (agent/config/config.go)

    A shallow embedding of [Merge], [Complete], [CheckMissingAndDepreciated],
    [TrimWhitespace], the four providers and [NewConfig], with the facts the
    specification states about them.

    Go strings are byte strings ([string]); a slice is [option (list _)]
    ([None] is the nil slice); [error] values are an inductive type and a
    possibly-nil [error] is an [option error]; logging, file and network
    accesses are events of a trace threaded through a small monad in which a
    run-time panic is a result of its own. *)

From Stdlib Require Import List String Ascii ZArith NArith Bool Lia.
Import ListNotations.
Open Scope string_scope.

(** ** Go's standard library, as far as config.go uses it *)

Module Go.

(** A slice: [None] is nil, [Some l] a slice of [List.length l] elements. *)
Definition slice (A : Type) : Type := option (list A).

Definition len {A : Type} (s : slice A) : nat :=
  match s with
  | None => 0
  | Some l => List.length l
  end.

(** [[]byte(s)]: the conversion allocates, so the result is never nil. *)
Definition bytes_of_string (s : string) : slice ascii :=
  Some (list_ascii_of_string s).

Inductive error : Type :=
| io_EOF
| io_ErrUnexpectedEOF
| strconv_ErrSyntax
| strconv_ErrRange
| errorString (msg : string)      (* errors.New(msg) *)
| otherError (descr : string).    (* any other library error *)

Definition byte (c : ascii) : N := N_of_ascii c.

(** *** strings.TrimSpace

    [TrimFunc(s, unicode.IsSpace)]: runes are decoded from the UTF-8 bytes,
    from the front and then from the back; a space rune is one of
    U+0009..U+000D, U+0020, U+0085, U+00A0, U+1680, U+2000..U+200A, U+2028,
    U+2029, U+202F, U+205F, U+3000.  A malformed sequence decodes to
    U+FFFD, which is not a space, so trimming stops there. *)

Definition asciiSpace (c : ascii) : bool :=
  let n := byte c in
  ((9 <=? n) && (n <=? 13) || (n =? 32))%N.

(** The third byte of the three-byte spaces that start with E2 80. *)
Definition e280Space (n : N) : bool :=
  ((128 <=? n) && (n <=? 138) || (n =? 168) || (n =? 169) || (n =? 175))%N.

Fixpoint trimLeft (l : list ascii) : list ascii :=
  match l with
  | [] => []
  | c :: r =>
    if asciiSpace c then trimLeft r
    else match r with
         | d :: r1 =>
           if ((byte c =? 194) && ((byte d =? 133) || (byte d =? 160)))%N
           then trimLeft r1
           else match r1 with
                | e :: r2 =>
                  if (((byte c =? 225) && (byte d =? 154) && (byte e =? 128))
                      || ((byte c =? 226) && (byte d =? 128) && e280Space (byte e))
                      || ((byte c =? 226) && (byte d =? 129) && (byte e =? 159))
                      || ((byte c =? 227) && (byte d =? 128) && (byte e =? 128)))%N
                  then trimLeft r2
                  else l
                | [] => l
                end
         | [] => l
         end
  end.

(** The same on the reversed string: [e] is the last byte, [d] the one
    before it, [c] the one before that. *)
Fixpoint trimRightRev (l : list ascii) : list ascii :=
  match l with
  | [] => []
  | e :: r =>
    if asciiSpace e then trimRightRev r
    else match r with
         | d :: r1 =>
           if ((byte d =? 194) && ((byte e =? 133) || (byte e =? 160)))%N
           then trimRightRev r1
           else match r1 with
                | c :: r2 =>
                  if (((byte c =? 225) && (byte d =? 154) && (byte e =? 128))
                      || ((byte c =? 226) && (byte d =? 128) && e280Space (byte e))
                      || ((byte c =? 226) && (byte d =? 129) && (byte e =? 159))
                      || ((byte c =? 227) && (byte d =? 128) && (byte e =? 128)))%N
                  then trimRightRev r2
                  else l
                | [] => l
                end
         | [] => l
         end
  end.

Definition TrimSpace (s : string) : string :=
  string_of_list_ascii
    (rev (trimRightRev (rev (trimLeft (list_ascii_of_string s))))).

(** *** strconv.ParseBool *)

Definition strconv_ParseBool (s : string) : option bool :=
  if existsb (String.eqb s) ["1"; "t"; "T"; "TRUE"; "true"; "True"] then Some true
  else if existsb (String.eqb s) ["0"; "f"; "F"; "FALSE"; "false"; "False"] then Some false
  else None.

(** *** strconv.ParseUint(s, 10, 16)

    The digits are accumulated left to right; the first byte that is not a
    decimal digit is a syntax error, the first prefix above 65535 a range
    error (reported with the value 65535). *)

Definition maxUint16 : Z := 65535.

Definition isDigit (c : ascii) : bool := ((48 <=? byte c) && (byte c <=? 57))%N.

Definition digitVal (c : ascii) : Z := Z.of_N (byte c) - 48.

Fixpoint ParseUint_loop (n : Z) (s : string) : Z * option error :=
  match s with
  | EmptyString => (n, None)
  | String c r =>
    if isDigit c then
      let n1 := (n * 10 + digitVal c)%Z in
      if (n1 >? maxUint16)%Z then (maxUint16, Some strconv_ErrRange)
      else ParseUint_loop n1 r
    else (0%Z, Some strconv_ErrSyntax)
  end.

Definition strconv_ParseUint16 (s : string) : Z * option error :=
  match s with
  | EmptyString => (0%Z, Some strconv_ErrSyntax)
  | _ => ParseUint_loop 0 s
  end.

(** The conversion [uint16(x)] of a uint64. *)
Definition to_uint16 (x : Z) : Z := (x mod 65536)%Z.

(** *** encoding/json's white space, and a blank input *)

Definition jsonSpace (c : ascii) : bool :=
  let n := byte c in
  ((n =? 32) || (n =? 9) || (n =? 13) || (n =? 10))%N.

Definition blank (s : string) : bool :=
  forallb jsonSpace (list_ascii_of_string s).

End Go.

Import Go.

(** ** The configuration record and its reflective view *)

Inductive Kind : Type := KString | KBool | KUint16 | KSlice.

(** [Kind.String()] *)
Definition Kind_String (k : Kind) : string :=
  match k with
  | KString => "string"
  | KBool => "bool"
  | KUint16 => "uint16"
  | KSlice => "slice"
  end.

Definition Kind_eqb (a b : Kind) : bool :=
  match a, b with
  | KString, KString | KBool, KBool | KUint16, KUint16 | KSlice, KSlice => true
  | _, _ => false
  end.

(** What [reflect.Value.Interface()] yields for a field of [Config]. *)
Inductive value : Type :=
| VString (s : string)
| VBool (b : bool)
| VUint16 (n : Z)
| VUint16s (l : slice Z)
| VBytes (l : slice ascii).

(** The Go type of a value: two slices of different element types are of
    the same kind and of different types. *)
Inductive GoType : Type := TString | TBool | TUint16 | TUint16s | TBytes.

Definition typeOf (v : value) : GoType :=
  match v with
  | VString _ => TString
  | VBool _ => TBool
  | VUint16 _ => TUint16
  | VUint16s _ => TUint16s
  | VBytes _ => TBytes
  end.

Definition kindOf (v : value) : Kind :=
  match v with
  | VString _ => KString
  | VBool _ => KBool
  | VUint16 _ => KUint16
  | VUint16s _ | VBytes _ => KSlice
  end.

(** Modelled from the spec: utils.ZeroOrNil is not among the sources.  "Every
    field type defines its own zero-equivalent: empty string, false,
    zero-length sequence, zero numeric value, absent byte sequence." *)
Definition ZeroOrNil (v : value) : bool :=
  match v with
  | VString s => String.eqb s ""
  | VBool b => negb b
  | VUint16 n => (n =? 0)%Z
  | VUint16s l => Nat.eqb (len l) 0
  | VBytes l => Nat.eqb (len l) 0
  end.

(** Modelled from the spec: the declaration of [Config] (types.go) is not
    among the sources.  The fields are those config.go reads or writes, each
    with the type its uses there fix, declared in this order; the struct tags
    are left open (they are a parameter below). *)
Record Config : Type := mkConfig {
  ClusterArn : string;
  Cluster : string;
  APIEndpoint : string;
  DockerEndpoint : string;
  AWSRegion : string;
  ReservedPorts : slice Z;
  ReservedPortsUDP : slice Z;
  DataDir : string;
  Checkpoint : bool;
  EngineAuthType : string;
  EngineAuthData : slice ascii;
  UpdatesEnabled : bool;
  UpdateDownloadDir : string;
  DisableMetrics : bool;
  DockerGraphPath : string;
  ReservedMemory : Z;
  EngineLogDriver : string;
  EngineLogOpts : string
}.

(** [Config{}] *)
Definition emptyConfig : Config :=
  mkConfig "" "" "" "" "" None None "" false "" None false "" false "" 0 "" "".

Definition fieldNames : list string :=
  [ "ClusterArn"; "Cluster"; "APIEndpoint"; "DockerEndpoint"; "AWSRegion";
    "ReservedPorts"; "ReservedPortsUDP"; "DataDir"; "Checkpoint";
    "EngineAuthType"; "EngineAuthData"; "UpdatesEnabled"; "UpdateDownloadDir";
    "DisableMetrics"; "DockerGraphPath"; "ReservedMemory"; "EngineLogDriver";
    "EngineLogOpts" ].

Definition fieldTypes : list GoType :=
  [ TString; TString; TString; TString; TString; TUint16s; TUint16s; TString;
    TBool; TString; TBytes; TBool; TString; TBool; TString; TUint16; TString;
    TString ].

(** [NumField()] *)
Definition NumField : nat := 18.

(** [Type.Field(i).Name] *)
Definition Name (i : nat) : string := nth i fieldNames "".

(** The fields of a record in declaration order. *)
Definition fields (c : Config) : list value :=
  [ VString (ClusterArn c); VString (Cluster c); VString (APIEndpoint c);
    VString (DockerEndpoint c); VString (AWSRegion c);
    VUint16s (ReservedPorts c); VUint16s (ReservedPortsUDP c);
    VString (DataDir c); VBool (Checkpoint c); VString (EngineAuthType c);
    VBytes (EngineAuthData c); VBool (UpdatesEnabled c);
    VString (UpdateDownloadDir c); VBool (DisableMetrics c);
    VString (DockerGraphPath c); VUint16 (ReservedMemory c);
    VString (EngineLogDriver c); VString (EngineLogOpts c) ].

(** The record of a list of field values; [None] when a value is not of its
    field's type or the list is not [NumField] long. *)
Definition of_fields (l : list value) : option Config :=
  match l with
  | [ VString a; VString b; VString c; VString d; VString e; VUint16s f;
      VUint16s g; VString h; VBool i; VString j; VBytes k; VBool m;
      VString n; VBool o; VString p; VUint16 q; VString r; VString s ] =>
    Some (mkConfig a b c d e f g h i j k m n o p q r s)
  | _ => None
  end.

Fixpoint list_set {A : Type} (i : nat) (v : A) (l : list A) : list A :=
  match l, i with
  | [], _ => []
  | _ :: r, O => v :: r
  | x :: r, S j => x :: list_set j v r
  end.

(** ** Effects: a trace of events, and panics *)

Inductive level : Type := Warn | Error | Crit.

Inductive logarg : Type :=
| AStr (s : string)
| ANat (n : nat)
| AErr (e : error).

Inductive event : Type :=
| Log (lvl : level) (msg : string) (ctx : list logarg)
| Open (path : string)                 (* os.Open *)
| ReadAll (path : string)              (* ioutil.ReadAll *)
| InstanceIdentityDocument.            (* the EC2 metadata call *)

Definition trace : Type := list event.

Inductive result (A : Type) : Type :=
| Done (a : A) (t : trace)
| Panic (why : string).

Arguments Done {A} a t.
Arguments Panic {A} why.

Definition M (A : Type) : Type := trace -> result A.

Definition ret {A : Type} (a : A) : M A := fun t => Done a t.

Definition bind {A B : Type} (m : M A) (f : A -> M B) : M B :=
  fun t =>
    match m t with
    | Done a t' => f a t'
    | Panic why => Panic why
    end.

Definition emit (e : event) : M unit := fun t => Done tt (t ++ [e])%list.

Definition panic {A : Type} (why : string) : M A := fun _ => Panic why.

Declare Scope monad_scope.
Delimit Scope monad_scope with monad.
Notation "x <- m ;; k" := (bind m (fun x => k))
  (at level 61, m at next level, right associativity) : monad_scope.
Notation "m ;; k" := (bind m (fun _ => k))
  (at level 61, right associativity) : monad_scope.
Open Scope monad_scope.

Definition log_Warn (msg : string) (ctx : list logarg) : M unit := emit (Log Warn msg ctx).
Definition log_Error (msg : string) (ctx : list logarg) : M unit := emit (Log Error msg ctx).
Definition log_Crit (msg : string) (ctx : list logarg) : M unit := emit (Log Crit msg ctx).

(** [v.Field(i).Interface()]: out of range is a panic. *)
Definition Field (c : Config) (i : nat) : M value :=
  match nth_error (fields c) i with
  | Some v => ret v
  | None => panic "reflect: Field index out of range"
  end.

(** [v.Field(i).Set(x)]: a panic unless [x] is of the field's type. *)
Definition Field_Set (c : Config) (i : nat) (x : value) : M Config :=
  match of_fields (list_set i x (fields c)) with
  | Some c' => ret c'
  | None => panic "reflect.Set: value is not assignable to the field"
  end.

(** [x.(string)] *)
Definition assert_string (v : value) : M string :=
  match v with
  | VString s => ret s
  | _ => panic "interface conversion: interface is not string"
  end.

(** [v.Field(i).SetString(s)] *)
Definition Field_SetString (c : Config) (i : nat) (s : string) : M Config :=
  f <- Field c i;;
  match kindOf f with
  | KString => Field_Set c i (VString s)
  | _ => panic "reflect: call of reflect.Value.SetString on non-string Value"
  end.

(** [for i := 0; i < NumField(); i++ { s = body i s }] *)
Fixpoint for_fields {S : Type} (body : nat -> S -> M S) (idx : list nat) (s : S) : M S :=
  match idx with
  | [] => ret s
  | i :: rest => s' <- body i s;; for_fields body rest s'
  end.

(** ** Merge and Complete *)

(** The two [reflect.Value]s [Merge] walks. *)
Record MergeState : Type := mkMergeState { left : Config; right : Config }.

Definition Merge_body (i : nat) (s : MergeState) : M MergeState :=
  leftField <- Field (left s) i;;
  if ZeroOrNil leftField then
    rightField <- Field (right s) i;;
    l' <- Field_Set (left s) i rightField;;
    ret (mkMergeState l' (right s))
  else ret s.

Definition Merge_loop (lhs rhs : Config) : M MergeState :=
  for_fields Merge_body (seq 0 NumField) (mkMergeState lhs rhs).

(** [lhs.Merge(rhs)]: the record [lhs] points to after the call. *)
Definition Merge (lhs rhs : Config) : M Config :=
  s <- Merge_loop lhs rhs;; ret (left s).

Fixpoint Complete_loop (cfg : Config) (idx : list nat) : M bool :=
  match idx with
  | [] => ret true
  | i :: rest =>
    f <- Field cfg i;;
    if ZeroOrNil f then ret false else Complete_loop cfg rest
  end.

Definition Complete (cfg : Config) : M bool :=
  Complete_loop cfg (seq 0 NumField).

(** ** Struct tags and the policy passes *)

(** A struct tag, as its key/value pairs. *)
Definition StructTag : Type := list (string * string).

(** [Tag.Get(key)]: the empty string when the key is absent. *)
Fixpoint Tag_Get (tag : StructTag) (key : string) : string :=
  match tag with
  | [] => ""
  | (k, v) :: rest => if String.eqb k key then v else Tag_Get rest key
  end.

Section Policy.

(** [Type.Field(i).Tag], from the declaration of [Config]. *)
Variable structTag : nat -> StructTag.

Definition CheckMissing_body (cfg : Config) (i : nat) (fatalFields : list string)
  : M (list string) :=
  cfgField <- Field cfg i;;
  if ZeroOrNil cfgField then
    let missingTag := Tag_Get (structTag i) "missing" in
    if Nat.eqb (String.length missingTag) 0 then ret fatalFields
    else if String.eqb missingTag "warn" then
      log_Warn "Configuration key not set" [AStr "key"; AStr (Name i)];;
      ret fatalFields
    else if String.eqb missingTag "fatal" then
      log_Crit "Configuration key not set" [AStr "key"; AStr (Name i)];;
      ret (fatalFields ++ [Name i])%list
    else
      log_Warn "Unexpected `missing` tag value" [AStr "tag"; AStr missingTag];;
      ret fatalFields
  else
    let deprecatedTag := Tag_Get (structTag i) "deprecated" in
    if Nat.eqb (String.length deprecatedTag) 0 then ret fatalFields
    else
      log_Warn "Use of deprecated configuration key"
               [AStr "key"; AStr (Name i); AStr "message"; AStr deprecatedTag];;
      ret fatalFields.

Definition CheckMissingAndDepreciated (cfg : Config) : M (option error) :=
  fatalFields <- for_fields (CheckMissing_body cfg) (seq 0 NumField) [];;
  if Nat.ltb 0 (List.length fatalFields) then
    ret (Some (errorString ("Missing required fields: " ++ String.concat ", " fatalFields)))
  else ret None.

(** Every field of [Config] is exported, so [CanInterface()] holds. *)
Definition CanInterface (i : nat) : bool := true.

Definition TrimWhitespace_body (i : nat) (cfg : Config) : M Config :=
  cfgField <- Field cfg i;;
  if negb (CanInterface i) then ret cfg
  else
    let trimTag := Tag_Get (structTag i) "trim" in
    if Nat.eqb (String.length trimTag) 0 then ret cfg
    else if negb (Kind_eqb (kindOf cfgField) KString) then
      log_Warn "Cannot trim non-string field"
               [AStr "type"; AStr (Kind_String (kindOf cfgField)); AStr "index"; ANat i];;
      ret cfg
    else
      str <- assert_string cfgField;;
      Field_SetString cfg i (TrimSpace str).

Definition TrimWhitespace (cfg : Config) : M Config :=
  for_fields TrimWhitespace_body (seq 0 NumField) cfg.

End Policy.

(** ** The providers *)

Definition DOCKER_RESERVED_PORT : Z := 2375.
Definition DOCKER_RESERVED_SSL_PORT : Z := 2376.
Definition SSH_PORT : Z := 22.
Definition AGENT_INTROSPECTION_PORT : Z := 51678.

Definition DefaultConfig : Config :=
  mkConfig "" "" "" "unix:///var/run/docker.sock" ""
           (Some [SSH_PORT; DOCKER_RESERVED_PORT; DOCKER_RESERVED_SSL_PORT;
                  AGENT_INTROSPECTION_PORT])
           (Some []) "/data/" false "" None false "" false "/var/lib/docker" 0
           "" "".

(** Modelled from the spec: utils.DefaultIfBlank is not among the sources;
    the path comes "from an environment override or a fixed default path". *)
Definition DefaultIfBlank (str default_value : string) : string :=
  if Nat.eqb (String.length (TrimSpace str)) 0 then default_value else str.

(** Modelled from the spec: utils.ParseBool is not among the sources; the
    variable is a "boolean-like string" and the default given by the caller
    is "overridable by [its] own explicit variable". *)
Definition ParseBool (str : string) (default_ : bool) : bool :=
  match strconv_ParseBool (TrimSpace str) with
  | Some res => res
  | None => default_
  end.

(** What [os.Open] followed by [ioutil.ReadAll] finds at a path. *)
Inductive FileState : Type :=
| OpenFails (err : error)
| ReadFails (err : error)
| Contents (data : string).

(** The process environment, the file system and the metadata service. *)
Record World : Type := mkWorld {
  Getenv : string -> string;                 (* os.Getenv: empty when unset *)
  file_at : string -> FileState;
  identity_document : error + string         (* the error, or iid.Region *)
}.

(** encoding/json, which is not modelled: its two uses are given functions.
    [json_Unmarshal data c] is the record [json.Unmarshal(data, &c)] leaves
    and the error it returns; [json_Decode s] is what a fresh decoder over a
    non-blank [s] stores into a nil [[]uint16] and returns. *)
Record Json : Type := mkJson {
  json_Unmarshal : string -> Config -> Config * option error;
  json_Decode : string -> slice Z * option error
}.

Definition quote : string := String (ascii_of_nat 34) EmptyString.

(** [err.Error()] *)
Definition Error_string (e : error) : string :=
  match e with
  | io_EOF => "EOF"
  | io_ErrUnexpectedEOF => "unexpected EOF"
  | strconv_ErrSyntax => "invalid syntax"
  | strconv_ErrRange => "value out of range"
  | errorString msg => msg
  | otherError descr => descr
  end.

(** [err != io.EOF && err != nil] *)
Definition neither_EOF_nor_nil (err : option error) : bool :=
  match err with
  | None => false
  | Some io_EOF => false
  | Some _ => true
  end.

(** A possibly-nil error as a logging argument. *)
Definition err_arg (err : option error) : logarg :=
  match err with
  | Some e => AErr e
  | None => AStr "<nil>"
  end.

Definition with_Cluster (c : Config) (v : string) : Config :=
  mkConfig (ClusterArn c) v (APIEndpoint c) (DockerEndpoint c) (AWSRegion c)
           (ReservedPorts c) (ReservedPortsUDP c) (DataDir c) (Checkpoint c)
           (EngineAuthType c) (EngineAuthData c) (UpdatesEnabled c)
           (UpdateDownloadDir c) (DisableMetrics c) (DockerGraphPath c)
           (ReservedMemory c) (EngineLogDriver c) (EngineLogOpts c).

Section Resolution.

Variable structTag : nat -> StructTag.
Variable json : Json.
Variable w : World.

(** [json.NewDecoder(strings.NewReader(s)).Decode(&ports)] with [ports] nil.
    An input with no byte other than JSON white space ends before a value
    starts: that is [io.EOF] and nothing is stored ("EOF means the string was
    blank").  Any other input is the library's to decode. *)
Definition Decoder_Decode (s : string) : slice Z * option error :=
  if blank s then (None, Some io_EOF) else json_Decode json s.

Definition FileConfig : M Config :=
  let config_file :=
    DefaultIfBlank (Getenv w "ECS_AGENT_CONFIG_FILE_PATH")
                   "/etc/ecs_container_agent/config.json" in
  emit (Open config_file);;
  match file_at w config_file with
  | OpenFails _ => ret emptyConfig
  | ReadFails err =>
    emit (ReadAll config_file);;
    log_Error "Unable to read config file" [AStr "err"; AErr err];;
    ret emptyConfig
  | Contents data =>
    emit (ReadAll config_file);;
    if String.eqb (TrimSpace data) "" then ret emptyConfig
    else
      let (config, err) := json_Unmarshal json data emptyConfig in
      match err with
      | Some e => log_Error "Error reading config json data" [AStr "err"; AErr e]
      | None => ret tt
      end;;
      if ZeroOrNil (VString (Cluster config))
         && negb (ZeroOrNil (VString (ClusterArn config)))
      then ret (with_Cluster config (ClusterArn config))
      else ret config
  end.

Definition ports_warning (var : string) : string :=
  "Invalid format for " ++ quote ++ var ++ quote
  ++ " environment variable; expected a JSON array like [1,2,3].".

Definition memory_warning : string :=
  "Invalid format for " ++ quote ++ "ECS_RESERVED_MEMORY" ++ quote
  ++ " environment variable; expected unsigned integer.".

Definition EnvironmentConfig : M Config :=
  let endpoint := Getenv w "ECS_BACKEND_HOST" in
  let clusterRef := Getenv w "ECS_CLUSTER" in
  let awsRegion := Getenv w "AWS_DEFAULT_REGION" in
  let dockerEndpoint := Getenv w "DOCKER_HOST" in
  let engineAuthType := Getenv w "ECS_ENGINE_AUTH_TYPE" in
  let engineAuthData := Getenv w "ECS_ENGINE_AUTH_DATA" in
  let engineLogDriver := Getenv w "DOCKER_LOG_DRIVER" in
  let engineLogOpts := Getenv w "DOCKER_LOG_OPTS" in
  let dataDir := Getenv w "ECS_DATADIR" in
  let checkpoint :=
    if negb (String.eqb dataDir "")
    then ParseBool (Getenv w "ECS_CHECKPOINT") true
    else ParseBool (Getenv w "ECS_CHECKPOINT") false in
  let reservedPortEnv := Getenv w "ECS_RESERVED_PORTS" in
  let (reservedPorts, err) := Decoder_Decode reservedPortEnv in
  (if neither_EOF_nor_nil err
   then log_Warn (ports_warning "ECS_RESERVED_PORTS") [AStr "err"; err_arg err]
   else ret tt);;
  let reservedPortUDPEnv := Getenv w "ECS_RESERVED_PORTS_UDP" in
  let (reservedPortsUDP, err) := Decoder_Decode reservedPortUDPEnv in
  (if neither_EOF_nor_nil err
   then log_Warn (ports_warning "ECS_RESERVED_PORTS_UDP") [AStr "err"; err_arg err]
   else ret tt);;
  let updateDownloadDir := Getenv w "ECS_UPDATE_DOWNLOAD_DIR" in
  let updatesEnabled := ParseBool (Getenv w "ECS_UPDATES_ENABLED") false in
  let disableMetrics := ParseBool (Getenv w "ECS_DISABLE_METRICS") false in
  let dockerGraphPath := Getenv w "ECS_DOCKER_GRAPHPATH" in
  let reservedMemoryEnv := Getenv w "ECS_RESERVED_MEMORY" in
  reservedMemory <-
    (if String.eqb reservedMemoryEnv "" then ret 0%Z
     else
       let (reservedMemory64, err) := strconv_ParseUint16 reservedMemoryEnv in
       match err with
       | Some e => log_Warn memory_warning [AStr "err"; AErr e];; ret 0%Z
       | None => ret (to_uint16 reservedMemory64)
       end);;
  ret (mkConfig "" clusterRef endpoint dockerEndpoint awsRegion reservedPorts
                reservedPortsUDP dataDir checkpoint engineAuthType
                (bytes_of_string engineAuthData) updatesEnabled
                updateDownloadDir disableMetrics dockerGraphPath reservedMemory
                engineLogDriver engineLogOpts).

Definition with_AWSRegion (c : Config) (v : string) : Config :=
  mkConfig (ClusterArn c) (Cluster c) (APIEndpoint c) (DockerEndpoint c) v
           (ReservedPorts c) (ReservedPortsUDP c) (DataDir c) (Checkpoint c)
           (EngineAuthType c) (EngineAuthData c) (UpdatesEnabled c)
           (UpdateDownloadDir c) (DisableMetrics c) (DockerGraphPath c)
           (ReservedMemory c) (EngineLogDriver c) (EngineLogOpts c).

Definition EC2MetadataConfig : M Config :=
  emit InstanceIdentityDocument;;
  match identity_document w with
  | inl err =>
    log_Crit ("Unable to communicate with EC2 Metadata service to infer region: "
              ++ Error_string err) [];;
    ret emptyConfig
  | inr region => ret (with_AWSRegion emptyConfig region)
  end.

(** ** NewConfig *)

(** The deferred function.  It runs after either [return]; [config] is a
    pointer and [err] a named result, so the caller gets the record as the
    deferred function leaves it and the error it assigns. *)
Definition NewConfig_deferred (config : Config) : M (Config * option error) :=
  config <- TrimWhitespace structTag config;;
  err <- CheckMissingAndDepreciated structTag config;;
  config <- Merge config DefaultConfig;;
  ret (config, err).

(** The statements of [NewConfig] between the [defer] and the return, from
    the record the environment gave: the record [config] points to when the
    function returns. *)
Definition NewConfig_body (ctmp : Config) : M Config :=
  complete <- Complete ctmp;;
  if complete then ret ctmp
  else
    file <- FileConfig;;
    config <- Merge ctmp file;;
    if String.eqb (AWSRegion config) ""
    then metadata <- EC2MetadataConfig;; Merge config metadata
    else ret config.

Definition NewConfig : M (Config * option error) :=
  ctmp <- EnvironmentConfig;;
  config <- NewConfig_body ctmp;;
  NewConfig_deferred config.

End Resolution.

(** ** The specification's vocabulary

    The words of the specification as functions on the list of a record's
    field values, to compare the code with. *)

Module Spec.

(** "if [isEmpty(primary.field[i])] then [primary.field[i] := secondary.field[i]],
    else unchanged" *)
Definition merge_field (a b : value) : value := if ZeroOrNil a then b else a.

Fixpoint merge (A B : list value) : list value :=
  match A, B with
  | a :: A', b :: B' => merge_field a b :: merge A' B'
  | _, _ => []
  end.

(** "a record is complete iff no field is empty" *)
Definition complete (L : list value) : bool :=
  forallb (fun v => negb (ZeroOrNil v)) L.

(** [f k a] for the element [a] at position [k], [k + 1], ... *)
Fixpoint imap {A B : Type} (f : nat -> A -> B) (k : nat) (l : list A) : list B :=
  match l with
  | [] => []
  | a :: r => f k a :: imap f (S k) r
  end.

Section Policies.

Variable structTag : nat -> StructTag.

(** The field carries [Required(fatal)]. *)
Definition fatal_required (i : nat) : bool :=
  String.eqb (Tag_Get (structTag i) "missing") "fatal".

(** The field carries [TrimWhitespace]. *)
Definition trim_annotated (i : nat) : bool :=
  negb (String.eqb (Tag_Get (structTag i) "trim") "").

(** Field [i] of [L] is empty and fatal-required. *)
Definition missing_fatal (L : list value) (i : nat) : bool :=
  match nth_error L i with
  | Some v => ZeroOrNil v && fatal_required i
  | None => false
  end.

(** The fatal-list: the identifiers of the empty fatal-required fields, in
    declaration order. *)
Definition fatal_list (L : list value) : list string :=
  map Name (filter (missing_fatal L) (seq 0 (List.length L))).

(** The aggregated error. *)
Definition missing_error (L : list value) : option error :=
  match fatal_list L with
  | [] => None
  | names => Some (errorString ("Missing required fields: " ++ String.concat ", " names))
  end.

(** "if its value is a string, replace it with the value after stripping
    leading/trailing whitespace; otherwise ... leave the value unchanged" *)
Definition trim_field (i : nat) (v : value) : value :=
  match v with
  | VString s => if trim_annotated i then VString (TrimSpace s) else v
  | _ => v
  end.

Definition trim (L : list value) : list value := imap trim_field 0 L.

(** The warning of the trim pass for a field that is not a string. *)
Definition trim_warning (i : nat) (v : value) : list event :=
  if trim_annotated i && negb (Kind_eqb (kindOf v) KString) then
    [Log Warn "Cannot trim non-string field"
         [AStr "type"; AStr (Kind_String (kindOf v)); AStr "index"; ANat i]]
  else [].

End Policies.

(** The value of a non-empty string of decimal digits, however large. *)
Fixpoint decimal_from (n : Z) (s : string) : option Z :=
  match s with
  | EmptyString => Some n
  | String c r => if isDigit c then decimal_from (n * 10 + digitVal c) r else None
  end.

Definition decimal (s : string) : option Z :=
  match s with
  | EmptyString => None
  | _ => decimal_from 0 s
  end.

End Spec.

(** ** Reading a trace *)

Definition level_eqb (a b : level) : bool :=
  match a, b with
  | Warn, Warn | Error, Error | Crit, Crit => true
  | _, _ => false
  end.

(** A message was logged at a level. *)
Definition logged (lvl : level) (msg : string) (t : trace) : bool :=
  existsb (fun e => match e with
                    | Log l m _ => level_eqb l lvl && String.eqb m msg
                    | _ => false
                    end) t.

(** Nothing was logged. *)
Definition no_log (t : trace) : bool :=
  forallb (fun e => match e with Log _ _ _ => false | _ => true end) t.

(** The number of files opened: the invocations of the File Provider. *)
Definition file_calls (t : trace) : nat :=
  List.length (filter (fun e => match e with Open _ => true | _ => false end) t).

(** The number of metadata calls: the invocations of the Metadata Provider. *)
Definition metadata_calls (t : trace) : nat :=
  List.length (filter (fun e => match e with InstanceIdentityDocument => true | _ => false end) t).

(** A computation that only appends to the trace it is given, and does the
    same whatever that trace is. *)
Definition uniform {A : Type} (m : M A) : Prop :=
  forall t, m t = match m [] with
                  | Done a e => Done a (t ++ e)%list
                  | Panic why => Panic why
                  end.

Definition default_path : string := "/etc/ecs_container_agent/config.json".

(** ** Bookkeeping for the loops over the fields *)

(** The events of step [i] of a loop, given those for a field value. *)
Definition events_at (ev : nat -> value -> list event) (c : Config) (i : nat)
  : list event :=
  match nth_error (fields c) i with
  | Some a => ev i a
  | None => []
  end.

(** What step [i] of [Merge] leaves in field [i] of the left record. *)
Definition merge_at (rhs : Config) (i : nat) (a : value) : value :=
  match nth_error (fields rhs) i with
  | Some b => Spec.merge_field a b
  | None => a
  end.

(** Only log events. *)
Definition quiet (t : trace) : bool :=
  forallb (fun e => match e with Log _ _ _ => true | _ => false end) t.

(** The warning [EnvironmentConfig] logs for a reserved-ports variable. *)
Definition ports_events (json : Json) (var val : string) : list event :=
  let err := snd (Decoder_Decode json val) in
  if neither_EOF_nor_nil err
  then [Log Warn (ports_warning var) [AStr "err"; err_arg err]]
  else [].

(** The warning [EnvironmentConfig] logs for the reserved-memory variable. *)
Definition memory_events (val : string) : list event :=
  if String.eqb val "" then []
  else match snd (strconv_ParseUint16 val) with
       | Some e => [Log Warn memory_warning [AStr "err"; AErr e]]
       | None => []
       end.

(** All [EnvironmentConfig] logs. *)
Definition env_events (json : Json) (w : World) : list event :=
  (ports_events json "ECS_RESERVED_PORTS" (Getenv w "ECS_RESERVED_PORTS")
   ++ ports_events json "ECS_RESERVED_PORTS_UDP" (Getenv w "ECS_RESERVED_PORTS_UDP")
   ++ memory_events (Getenv w "ECS_RESERVED_MEMORY"))%list.

(** [err == io.EOF] *)
Definition is_EOF (e : error) : bool :=
  match e with
  | io_EOF => true
  | _ => false
  end.

(** What [EnvironmentConfig] does with a reserved-ports variable of value
    [val]: the field it fills and whether it logs the warning. *)
Definition ports_outcome (json : Json) (val : string) (field : slice Z) (warned : bool)
  : Prop :=
  if blank val then field = None /\ warned = false
  else match json_Decode json val with
       | (p, None) => field = p /\ warned = false
       | (_, Some err) => warned = negb (is_EOF err)
       end.

(** The path [FileConfig] opens. *)
Definition config_path (w : World) : string :=
  DefaultIfBlank (Getenv w "ECS_AGENT_CONFIG_FILE_PATH") default_path.

(** ** Sample schemas, environments and records *)

(** A tag table in the vocabulary of the specification: a deprecated legacy
    identity field, a fatal-required and trimmed region. *)
Definition tags_region_fatal (i : nat) : StructTag :=
  match i with
  | 0 => [("deprecated", "Please use Cluster instead")]
  | 1 => [("trim", "true")]
  | 4 => [("missing", "fatal"); ("trim", "true")]
  | 9 => [("trim", "true")]
  | _ => []
  end.

(** The same with the data directory fatal-required as well. *)
Definition tags_datadir_fatal (i : nat) : StructTag :=
  match i with
  | 7 => [("missing", "fatal")]
  | _ => tags_region_fatal i
  end.

(** The JSON documents of the examples. *)
Definition doc_type_mismatch : string :=
  "{" ++ quote ++ "Cluster" ++ quote ++ ":" ++ quote ++ "c1" ++ quote ++ ","
  ++ quote ++ "Checkpoint" ++ quote ++ ":" ++ quote ++ "yes" ++ quote ++ "}".

Definition doc_region : string :=
  "{" ++ quote ++ "AWSRegion" ++ quote ++ ":" ++ quote ++ "us-west-2" ++ quote ++ "}".

(** encoding/json on the documents of the examples.  A JSON value of the
    wrong type for its target is skipped, decoding goes on, and the first
    such mismatch is returned as an [UnmarshalTypeError]: the string "yes"
    for the boolean [Checkpoint] leaves [Cluster] decoded; the number 70000
    in an array leaves a zero element in the [[]uint16].  Text that is not
    JSON is a syntax error and stores nothing. *)
Definition sample_json : Json :=
  mkJson
    (fun data c =>
       if String.eqb data doc_type_mismatch then
         (with_Cluster c "c1",
          Some (otherError "json: cannot unmarshal string into Go value of type bool"))
       else if String.eqb data doc_region then (with_AWSRegion c "us-west-2", None)
       else (c, Some (otherError "invalid character looking for beginning of value")))
    (fun s =>
       if String.eqb s "[70000]" then
         (Some [0%Z],
          Some (otherError "json: cannot unmarshal number 70000 into Go value of type uint16"))
       else if String.eqb s "[22,2375]" then (Some [22%Z; 2375%Z], None)
       else (None, Some (otherError "invalid character looking for beginning of value"))).

(** A host with the given environment, no configuration file and a metadata
    service that answers. *)
Definition world_of_env (env : string -> string) : World :=
  mkWorld env
          (fun _ => OpenFails (otherError "open: no such file or directory"))
          (inr "us-east-1").

Definition no_env : string -> string := fun _ => "".

Definition env_of (name val : string) : string -> string :=
  fun n => if String.eqb n name then val else "".

(** A host whose configuration file is as given. *)
Definition world_of_file (f : FileState) : World :=
  mkWorld no_env (fun _ => f) (inr "us-east-1").

(** A record with no empty field. *)
Definition full_config : Config :=
  mkConfig "arn" "cluster" "ecs.example" "unix:///docker.sock" "us-west-2"
           (Some [22%Z]) (Some [53%Z]) "/data/" true "docker"
           (bytes_of_string "{}") true "/tmp" true "/var/lib/docker" 64
           "json-file" "max-size=10m".

(** ** The version file generator (agent/version/gen/version-gen.go) *)

Module VersionGen.

Record versionInfo : Type := mkInfo {
  Version : string;
  Dirty : bool;
  Hash : string
}.

(** What [main] does to the world around it. *)
Inductive vevent : Type :=
| EvReadFile (path : string)                   (* ioutil.ReadFile *)
| EvExec (name : string) (args : list string)  (* exec.Command(...).Run or .Output *)
| EvCreate (path : string)                     (* os.Create *)
| EvWritten (path : string) (content : string) (* the template executed into the file *)
| EvFatalf (msg : string).                     (* log.Fatalf: the process exits *)

(** The machine the generator runs on. *)
Record Host : Type := mkHost {
  read_VERSION : option string;    (* the contents of ../../VERSION, if readable *)
  env : string -> string;          (* os.Getenv *)
  git_status : option error;       (* the error of git status --porcelain *)
  git_rev_parse : string + error;  (* the output of git rev-parse --short HEAD *)
  create : option error;           (* the error of os.Create *)
  execute : option error           (* the error of writing the template out *)
}.

(** The template, cut at its three actions. *)
Definition template_0 : string :=
  ("// This is an autogenerated file and should not be edited.

// Copyright 2014-2015 Amazon.com, Inc. or its affiliates. All Rights Reserved.
//
// Licensed under the Apache License, Version 2.0 (the " ++ quote ++ "License" ++ quote ++ "). You may
// not use this file except in compliance with the License. A copy of the
// License is located at
//
//	http://aws.amazon.com/apache2.0/
//
// or in the " ++ quote ++ "license" ++ quote ++ " file accompanying this file. This file is distributed
// on an " ++ quote ++ "AS IS" ++ quote ++ " BASIS, WITHOUT WARRANTIES OR CONDITIONS OF ANY KIND, either
// express or implied. See the License for the specific language governing
// permissions and limitations under the License.

// Package version contains constants to indicate the current version of the
// agent. It is autogenerated
package version

// Please DO NOT commit any changes to this file (specifically this hash) except
// for those created by running ./scripts/update-version at the root of the
// repository

//go:generate go run gen/version-gen.go

// Version is the version of the Agent
const Version = " ++ quote ++ "")%string.

Definition template_1 : string :=
  ("" ++ quote ++ "

// GitDirty indicates the cleanliness of the git repo when this agent was built
const GitDirty = ")%string.

Definition template_2 : string :=
  ("

// GitShortHash is the short hash of this agent build
const GitShortHash = " ++ quote ++ "")%string.

Definition template_3 : string :=
  ("" ++ quote ++ "
")%string.

(** [t.Execute(outFile, info)]: text/template prints a string field as it is
    and a boolean as true or false. *)
Definition render (info : versionInfo) : string :=
  (template_0 ++ Version info ++ template_1
   ++ (if Dirty info then "true" else "false") ++ template_2
   ++ Hash info ++ template_3)%string.

Definition gitDirty (h : Host) : bool * list vevent :=
  (match git_status h with
   | None => false
   | Some _ => true
   end,
   [EvExec "git" ["status"; "--porcelain"]]).

Definition gitHash (h : Host) : string * list vevent :=
  (match git_rev_parse h with
   | inr _ => "UNKNOWN"
   | inl hash => TrimSpace hash
   end,
   [EvExec "git" ["rev-parse"; "--short"; "HEAD"]]).

(** [main]: the [versionInfo] it builds and what it does. *)
Definition main (h : Host) : versionInfo * list vevent :=
  let versionStr := match read_VERSION h with
                    | Some s => s
                    | None => ""
                    end in
  let ev0 := [EvReadFile "../../VERSION"] in
  let info := mkInfo (TrimSpace versionStr) true "UNKNOWN" in
  let (dirty, ev1) :=
    if String.eqb (TrimSpace (env h "ECS_RELEASE")) "cleanbuild"
    then gitDirty h else (Dirty info, []) in
  let info := mkInfo (Version info) dirty (Hash info) in
  let (hash, ev2) :=
    if String.eqb (env h "ECS_UNKNOWN_VERSION") ""
    then gitHash h else (Hash info, []) in
  let info := mkInfo (Version info) (Dirty info) hash in
  let ev3 :=
    match create h with
    | Some err =>
      [EvCreate "version.go";
       EvFatalf ("Unable to create output version file: " ++ Error_string err)%string]
    | None =>
      EvCreate "version.go"
      :: match execute h with
         | Some err => [EvFatalf ("Error applying template: " ++ Error_string err)%string]
         | None => [EvWritten "version.go" (render info)]
         end
    end in
  (info, (ev0 ++ ev1 ++ ev2 ++ ev3)%list).

(** The number of times [git] was run. *)
Definition git_runs (ev : list vevent) : nat :=
  List.length (filter (fun e => match e with
                                | EvExec name _ => String.eqb name "git"
                                | _ => false
                                end) ev).

(** [git status] was run. *)
Definition ran_git_status (ev : list vevent) : bool :=
  existsb (fun e => match e with
                    | EvExec _ ("status"%string :: _) => true
                    | _ => false
                    end) ev.



(** A host with a readable VERSION file and a working git. *)
Definition sample_host (release unknown : string) : Host :=
  mkHost (Some ("1.5.0" ++ String (ascii_of_nat 10) EmptyString)%string)
         (fun n => if String.eqb n "ECS_RELEASE" then release
                   else if String.eqb n "ECS_UNKNOWN_VERSION" then unknown
                   else "")
         None
         (inl ("ab12cd3" ++ String (ascii_of_nat 10) EmptyString)%string)
         None None.

End VersionGen.

(** ** What the required-field check logs *)

Section CheckLog.

Variable structTag : nat -> StructTag.

(** Field [i] of [L] is empty and tagged [missing:"warn"]. *)
Definition missing_warn (L : list value) (i : nat) : bool :=
  match nth_error L i with
  | Some v => ZeroOrNil v && String.eqb (Tag_Get (structTag i) "missing") "warn"
  | None => false
  end.

(** Field [i] of [L] is empty and its [missing] tag is neither absent nor one
    of the two known values. *)
Definition missing_unexpected (L : list value) (i : nat) : bool :=
  match nth_error L i with
  | Some v =>
    let tag := Tag_Get (structTag i) "missing" in
    ZeroOrNil v && negb (String.eqb tag "") && negb (String.eqb tag "warn")
    && negb (String.eqb tag "fatal")
  | None => false
  end.

(** Field [i] of [L] is set and carries a [deprecated] tag. *)
Definition deprecated_used (L : list value) (i : nat) : bool :=
  match nth_error L i with
  | Some v => negb (ZeroOrNil v)
              && negb (String.eqb (Tag_Get (structTag i) "deprecated") "")
  | None => false
  end.

(** The events of step [i] of [CheckMissingAndDepreciated]. *)
Definition check_events (cfg : Config) (i : nat) : list event :=
  let L := fields cfg in
  if Spec.missing_fatal structTag L i then
    [Log Crit "Configuration key not set" [AStr "key"; AStr (Name i)]]
  else if missing_warn L i then
    [Log Warn "Configuration key not set" [AStr "key"; AStr (Name i)]]
  else if missing_unexpected L i then
    [Log Warn "Unexpected `missing` tag value"
         [AStr "tag"; AStr (Tag_Get (structTag i) "missing")]]
  else if deprecated_used L i then
    [Log Warn "Use of deprecated configuration key"
         [AStr "key"; AStr (Name i); AStr "message";
          AStr (Tag_Get (structTag i) "deprecated")]]
  else [].

End CheckLog.

(** ** The leading and the trailing space of a byte string *)

Definition space2 (c d : ascii) : bool :=
  ((byte c =? 194) && ((byte d =? 133) || (byte d =? 160)))%N.

Definition space3 (c d e : ascii) : bool :=
  (((byte c =? 225) && (byte d =? 154) && (byte e =? 128))
   || ((byte c =? 226) && (byte d =? 128) && e280Space (byte e))
   || ((byte c =? 226) && (byte d =? 129) && (byte e =? 159))
   || ((byte c =? 227) && (byte d =? 128) && (byte e =? 128)))%N.

(** The number of bytes of the space rune a string starts with, 0 when it
    starts with none. *)
Definition leading (l : list ascii) : nat :=
  match l with
  | [] => 0
  | c :: r =>
    if asciiSpace c then 1
    else match r with
         | d :: r1 =>
           if space2 c d then 2
           else match r1 with
                | e :: _ => if space3 c d e then 3 else 0
                | [] => 0
                end
         | [] => 0
         end
  end.

(** The same for the space rune a string ends with, on the reversed
    string. *)
Definition trailing (l : list ascii) : nat :=
  match l with
  | [] => 0
  | e :: r =>
    if asciiSpace e then 1
    else match r with
         | d :: r1 =>
           if space2 d e then 2
           else match r1 with
                | c :: _ => if space3 c d e then 3 else 0
                | [] => 0
                end
         | [] => 0
         end
  end.

(** * Proofs *)

Open Scope list_scope.

(** ** Lists *)

Lemma list_set_length {A : Type} (i : nat) (v : A) (l : list A) :
  List.length (list_set i v l) = List.length l.
Proof.
  revert i; induction l as [|x r IH]; intros [|j]; simpl; auto.
Qed.

Lemma nth_error_list_set_eq {A : Type} (i : nat) (v a : A) (l : list A) :
  nth_error l i = Some a -> nth_error (list_set i v l) i = Some v.
Proof.
  revert i; induction l as [|x r IH]; intros [|j]; simpl; try discriminate; auto.
Qed.

Lemma nth_error_list_set_neq {A : Type} (i j : nat) (v : A) (l : list A) :
  i <> j -> nth_error (list_set i v l) j = nth_error l j.
Proof.
  revert i j; induction l as [|x r IH]; intros [|i] [|j] H; simpl; auto.
  congruence.
Qed.

Lemma list_set_same {A : Type} (i : nat) (a : A) (l : list A) :
  nth_error l i = Some a -> list_set i a l = l.
Proof.
  revert i; induction l as [|x r IH]; intros [|j]; simpl; try discriminate.
  - intros H; injection H as ->; reflexivity.
  - intros H; rewrite IH; auto.
Qed.

Lemma map_list_set {A B : Type} (f : A -> B) (i : nat) (v : A) (l : list A) :
  map f (list_set i v l) = list_set i (f v) (map f l).
Proof.
  revert i; induction l as [|x r IH]; intros [|j]; simpl; auto.
  rewrite IH; reflexivity.
Qed.

Lemma nth_error_ext {A : Type} (l l' : list A) :
  (forall i, nth_error l i = nth_error l' i) -> l = l'.
Proof.
  revert l'; induction l as [|x r IH]; intros [|y r'] H; auto.
  - specialize (H 0); discriminate.
  - specialize (H 0); discriminate.
  - f_equal.
    + specialize (H 0); simpl in H; congruence.
    + apply IH; intros i; exact (H (S i)).
Qed.

Lemma nth_error_imap {A B : Type} (f : nat -> A -> B) (k : nat) (l : list A) (j : nat) :
  nth_error (Spec.imap f k l) j = option_map (f (k + j)) (nth_error l j).
Proof.
  revert k j; induction l as [|x r IH]; intros k [|j]; simpl; auto.
  - rewrite Nat.add_0_r; reflexivity.
  - rewrite IH. replace (k + S j) with (S k + j) by lia. reflexivity.
Qed.

Lemma nth_error_merge (A B : list value) (i : nat) :
  nth_error (Spec.merge A B) i =
  match nth_error A i, nth_error B i with
  | Some a, Some b => Some (Spec.merge_field a b)
  | _, _ => None
  end.
Proof.
  revert B i; induction A as [|a A' IH]; intros [|b B'] [|i]; simpl; auto.
  destruct (nth_error A' i); reflexivity.
Qed.

(** ** The reflective view of a record *)

Lemma fields_length (c : Config) : List.length (fields c) = NumField.
Proof. reflexivity. Qed.

Lemma fields_types (c : Config) : map typeOf (fields c) = fieldTypes.
Proof. reflexivity. Qed.

Lemma of_fields_fields (c : Config) : of_fields (fields c) = Some c.
Proof. destruct c; reflexivity. Qed.

Lemma fields_inj (c c' : Config) : fields c = fields c' -> c = c'.
Proof.
  intros H. pose proof (of_fields_fields c) as E. rewrite H, of_fields_fields in E.
  congruence.
Qed.

Ltac next_field l :=
  destruct l as [|[?|?|?|?|?] l]; try discriminate.

Lemma of_fields_typed (l : list value) :
  map typeOf l = fieldTypes -> exists c, of_fields l = Some c /\ fields c = l.
Proof.
  intros H. unfold fieldTypes in H.
  do 18 (next_field l).
  destruct l; [|discriminate].
  eexists; split; reflexivity.
Qed.

Lemma field_in_range (c : Config) (i : nat) :
  i < NumField -> exists a, nth_error (fields c) i = Some a.
Proof.
  intros H. destruct (nth_error (fields c) i) eqn:E; eauto.
  apply nth_error_None in E. rewrite fields_length in E. lia.
Qed.

Lemma field_type (c : Config) (i : nat) (a : value) :
  nth_error (fields c) i = Some a -> nth_error fieldTypes i = Some (typeOf a).
Proof.
  intros H. rewrite <- (fields_types c). rewrite nth_error_map, H. reflexivity.
Qed.

(** ** Running the reflective primitives *)

Lemma Field_run (c : Config) (i : nat) (a : value) (t : trace) :
  nth_error (fields c) i = Some a -> Field c i t = Done a t.
Proof. intros H. unfold Field. rewrite H. reflexivity. Qed.

Lemma Field_Set_run (c : Config) (i : nat) (a x : value) (t : trace) :
  nth_error (fields c) i = Some a -> typeOf x = typeOf a ->
  exists c', Field_Set c i x t = Done c' t /\ fields c' = list_set i x (fields c).
Proof.
  intros Ha Hx.
  destruct (of_fields_typed (list_set i x (fields c))) as [c' [E F]].
  - rewrite map_list_set, Hx, fields_types.
    apply list_set_same. apply (field_type c). exact Ha.
  - exists c'. unfold Field_Set. rewrite E. split; [reflexivity | exact F].
Qed.

Lemma bind_Done {A B : Type} (m : M A) (f : A -> M B) (a : A) (t t' : trace) :
  m t = Done a t' -> bind m f t = f a t'.
Proof. intros H. unfold bind. rewrite H. reflexivity. Qed.

Lemma flat_map_ext_in {A B : Type} (f g : A -> list B) (l : list A) :
  (forall a, In a l -> f a = g a) -> flat_map f l = flat_map g l.
Proof.
  induction l as [|x r IH]; simpl; intros H; auto.
  rewrite H by auto. rewrite IH by auto. reflexivity.
Qed.

Lemma flat_map_nil {A B : Type} (l : list A) :
  flat_map (fun _ : A => @nil B) l = [].
Proof. induction l; simpl; auto. Qed.

(** ** A loop whose step [i] rewrites field [i] alone

    [Merge] and [TrimWhitespace] are both loops over the field indices whose
    step [i] replaces field [i] by a function of its current value and
    touches nothing else. *)

Section Pointwise.

Variables (S R : Type) (cfgOf : S -> Config) (rest : S -> R).
Variable g : R -> nat -> value -> value.
Variable ev : nat -> value -> list event.
Variable body : nat -> S -> M S.

Hypothesis body_run : forall i s a t,
  nth_error (fields (cfgOf s)) i = Some a ->
  exists s', body i s t = Done s' (t ++ ev i a)
             /\ rest s' = rest s
             /\ fields (cfgOf s') = list_set i (g (rest s) i a) (fields (cfgOf s)).

Lemma for_fields_pointwise (idx : list nat) :
  NoDup idx -> Forall (fun i => i < NumField) idx ->
  forall s t,
  exists s', for_fields body idx s t = Done s' (t ++ flat_map (events_at ev (cfgOf s)) idx)
             /\ rest s' = rest s
             /\ forall j, nth_error (fields (cfgOf s')) j =
                          if in_dec Nat.eq_dec j idx
                          then option_map (g (rest s) j) (nth_error (fields (cfgOf s)) j)
                          else nth_error (fields (cfgOf s)) j.
Proof.
  induction idx as [|i idx IH]; intros ND Hlt s t.
  - exists s. simpl. rewrite app_nil_r. auto.
  - inversion ND as [|? ? Hni ND']; subst.
    inversion Hlt as [|? ? Hi Hlt']; subst.
    destruct (field_in_range (cfgOf s) i Hi) as [a Ha].
    destruct (body_run i s a t Ha) as [s1 [E1 [R1 F1]]].
    destruct (IH ND' Hlt' s1 (t ++ ev i a)) as [s' [E' [R' F']]].
    exists s'. split; [|split].
    + simpl. rewrite (bind_Done _ _ _ _ _ E1), E'.
      f_equal. rewrite <- app_assoc. f_equal.
      unfold events_at at 2. rewrite Ha. f_equal.
      apply flat_map_ext_in. intros k Hk. unfold events_at.
      rewrite F1, nth_error_list_set_neq; auto. congruence.
    + congruence.
    + intros j. rewrite F'. rewrite R1, F1.
      destruct (Nat.eq_dec i j) as [->|Hij].
      * destruct (in_dec Nat.eq_dec j idx) as [Hin|_]; [contradiction|].
        destruct (in_dec Nat.eq_dec j (j :: idx)) as [_|Hn]; [|exfalso; apply Hn; left; auto].
        rewrite (nth_error_list_set_eq _ _ _ _ Ha), Ha. reflexivity.
      * rewrite nth_error_list_set_neq by auto.
        destruct (in_dec Nat.eq_dec j idx) as [Hin|Hn];
          destruct (in_dec Nat.eq_dec j (i :: idx)) as [Hin'|Hn']; auto.
        -- exfalso; apply Hn'; right; auto.
        -- destruct Hin' as [->|]; [congruence | contradiction].
Qed.

Lemma for_fields_all (s : S) (t : trace) :
  exists s', for_fields body (seq 0 NumField) s t
             = Done s' (t ++ flat_map (events_at ev (cfgOf s)) (seq 0 NumField))
             /\ rest s' = rest s
             /\ fields (cfgOf s') = Spec.imap (g (rest s)) 0 (fields (cfgOf s)).
Proof.
  destruct (for_fields_pointwise (seq 0 NumField)) with (s := s) (t := t)
    as [s' [E [Hr F]]].
  - apply seq_NoDup.
  - apply Forall_forall. intros i Hi. apply in_seq in Hi. lia.
  - exists s'. split; [exact E|]. split; [exact Hr|].
    apply nth_error_ext. intros j. rewrite F, nth_error_imap.
    change (0 + j) with j.
    destruct (in_dec Nat.eq_dec j (seq 0 NumField)) as [_|Hn]; auto.
    destruct (nth_error (fields (cfgOf s)) j) eqn:E1; auto.
    exfalso. apply Hn. apply in_seq.
    assert (j < List.length (fields (cfgOf s))) by (apply nth_error_Some; congruence).
    rewrite fields_length in *. lia.
Qed.

End Pointwise.

(** ** Merge *)

Lemma Merge_body_run (i : nat) (s : MergeState) (a : value) (t : trace) :
  nth_error (fields (left s)) i = Some a ->
  exists s', Merge_body i s t = Done s' (t ++ [])
             /\ right s' = right s
             /\ fields (left s') = list_set i (merge_at (right s) i a) (fields (left s)).
Proof.
  intros Ha. unfold Merge_body, merge_at, Spec.merge_field.
  rewrite (bind_Done _ _ _ _ _ (Field_run _ _ _ _ Ha)), app_nil_r.
  assert (Hi : i < NumField).
  { rewrite <- (fields_length (left s)). apply nth_error_Some. congruence. }
  destruct (field_in_range (right s) i Hi) as [b Hb]. rewrite Hb.
  destruct (ZeroOrNil a) eqn:Z.
  - assert (Ht : typeOf b = typeOf a).
    { pose proof (field_type _ _ _ Ha). pose proof (field_type _ _ _ Hb). congruence. }
    destruct (Field_Set_run (left s) i a b t Ha Ht) as [c' [E F]].
    exists (mkMergeState c' (right s)).
    rewrite (bind_Done _ _ _ _ _ (Field_run _ _ _ _ Hb)).
    rewrite (bind_Done _ _ _ _ _ E). auto.
  - exists s. rewrite (list_set_same _ _ _ Ha). auto.
Qed.

Lemma imap_merge_at (A B : Config) :
  Spec.imap (merge_at B) 0 (fields A) = Spec.merge (fields A) (fields B).
Proof.
  apply nth_error_ext. intros j. rewrite nth_error_imap, nth_error_merge.
  change (0 + j) with j. unfold merge_at.
  destruct (nth_error (fields A) j) eqn:Ea; simpl; auto.
  destruct (field_in_range B j) as [b Hb].
  - rewrite <- (fields_length A). apply nth_error_Some. congruence.
  - rewrite Hb. reflexivity.
Qed.

Lemma Merge_loop_run (A B : Config) (t : trace) :
  exists s, Merge_loop A B t = Done s t
            /\ right s = B
            /\ fields (left s) = Spec.merge (fields A) (fields B).
Proof.
  destruct (for_fields_all MergeState Config left right merge_at (fun _ _ => [])
              Merge_body Merge_body_run (mkMergeState A B) t) as [s [E [Hr F]]].
  assert (N : flat_map (events_at (fun _ _ => []) A) (seq 0 NumField) = []).
  { rewrite <- (flat_map_nil (seq 0 NumField)).
    apply flat_map_ext_in. intros i _. unfold events_at.
    destruct (nth_error (fields A) i); reflexivity. }
  exists s. unfold Merge_loop. rewrite E.
  cbn [left right] in *. rewrite N, app_nil_r.
  split; [reflexivity|]. split; [exact Hr|].
  rewrite F. apply imap_merge_at.
Qed.

Lemma Merge_run (A B : Config) (t : trace) :
  exists c, Merge A B t = Done c t /\ fields c = Spec.merge (fields A) (fields B).
Proof.
  destruct (Merge_loop_run A B t) as [s [E [_ F]]].
  exists (left s). unfold Merge. rewrite (bind_Done _ _ _ _ _ E). auto.
Qed.

(** ** Complete *)

Lemma Complete_loop_run (cfg : Config) (idx : list nat) (t : trace) :
  Forall (fun i => i < NumField) idx ->
  Complete_loop cfg idx t =
  Done (forallb (fun i => match nth_error (fields cfg) i with
                          | Some v => negb (ZeroOrNil v)
                          | None => true
                          end) idx) t.
Proof.
  induction idx as [|i idx IH]; intros H; simpl; auto.
  inversion H as [|? ? Hi H']; subst.
  destruct (field_in_range cfg i Hi) as [a Ha].
  rewrite (bind_Done _ _ _ _ _ (Field_run _ _ _ _ Ha)), Ha.
  destruct (ZeroOrNil a); simpl; auto.
Qed.

Lemma Complete_run (cfg : Config) (t : trace) :
  Complete cfg t = Done (Spec.complete (fields cfg)) t.
Proof.
  unfold Complete. rewrite Complete_loop_run.
  - reflexivity.
  - apply Forall_forall. intros i Hi. apply in_seq in Hi. lia.
Qed.

Lemma merge_complete (A B : list value) :
  List.length A = List.length B -> Spec.complete A = true -> Spec.merge A B = A.
Proof.
  revert B; induction A as [|a A' IH]; intros [|b B'] HL HC; simpl in *;
    try discriminate; auto.
  apply andb_prop in HC. destruct HC as [Ha HC].
  unfold Spec.merge_field. destruct (ZeroOrNil a); [discriminate|].
  f_equal. apply IH; auto.
Qed.

(** ** Traces *)

Lemma quiet_app (a b : trace) : quiet (a ++ b) = quiet a && quiet b.
Proof. apply forallb_app. Qed.

Lemma file_calls_app (a b : trace) : file_calls (a ++ b) = file_calls a + file_calls b.
Proof. unfold file_calls. rewrite filter_app, length_app. reflexivity. Qed.

Lemma metadata_calls_app (a b : trace) :
  metadata_calls (a ++ b) = metadata_calls a + metadata_calls b.
Proof. unfold metadata_calls. rewrite filter_app, length_app. reflexivity. Qed.

Lemma quiet_no_calls (e : trace) :
  quiet e = true -> file_calls e = 0 /\ metadata_calls e = 0.
Proof.
  induction e as [|x e IH]; simpl; auto.
  destruct x; simpl; try discriminate. exact IH.
Qed.

(** ** CheckMissingAndDepreciated *)

Lemma length_eqb_0 (s : string) : Nat.eqb (String.length s) 0 = String.eqb s "".
Proof. destruct s; reflexivity. Qed.

Section PolicyProofs.

Variable structTag : nat -> StructTag.

Lemma CheckMissing_body_run (cfg : Config) (i : nat) (acc : list string)
      (a : value) (t : trace) :
  nth_error (fields cfg) i = Some a ->
  exists e,
    CheckMissing_body structTag cfg i acc t
    = Done (acc ++ (if Spec.missing_fatal structTag (fields cfg) i then [Name i] else []))
           (t ++ e)
    /\ quiet e = true.
Proof.
  intros Ha. unfold CheckMissing_body, Spec.missing_fatal, Spec.fatal_required.
  rewrite (bind_Done _ _ _ _ _ (Field_run _ _ _ _ Ha)), Ha.
  destruct (ZeroOrNil a); simpl.
  - rewrite length_eqb_0.
    destruct (String.eqb (Tag_Get (structTag i) "missing") "") eqn:E0.
    + apply String.eqb_eq in E0. rewrite E0. simpl.
      exists []. rewrite !app_nil_r. auto.
    + destruct (String.eqb (Tag_Get (structTag i) "missing") "warn") eqn:E1.
      * apply String.eqb_eq in E1. rewrite E1. simpl.
        eexists. unfold bind, log_Warn, emit, ret. rewrite app_nil_r.
        split; reflexivity.
      * destruct (String.eqb (Tag_Get (structTag i) "missing") "fatal") eqn:E2.
        -- eexists. unfold bind, log_Crit, emit, ret. split; reflexivity.
        -- eexists. unfold bind, log_Warn, emit, ret. rewrite app_nil_r.
           split; reflexivity.
  - rewrite length_eqb_0.
    destruct (String.eqb (Tag_Get (structTag i) "deprecated") "").
    + exists []. rewrite !app_nil_r. auto.
    + eexists. unfold bind, log_Warn, emit, ret. rewrite app_nil_r.
      split; reflexivity.
Qed.

Lemma CheckMissing_loop_run (cfg : Config) (idx : list nat) :
  Forall (fun i => i < NumField) idx ->
  forall acc t,
  exists e,
    for_fields (CheckMissing_body structTag cfg) idx acc t
    = Done (acc ++ map Name (filter (Spec.missing_fatal structTag (fields cfg)) idx))
           (t ++ e)
    /\ quiet e = true.
Proof.
  induction idx as [|i idx IH]; intros H acc t.
  - exists []. simpl. rewrite !app_nil_r. auto.
  - inversion H as [|? ? Hi H']; subst.
    destruct (field_in_range cfg i Hi) as [a Ha].
    destruct (CheckMissing_body_run cfg i acc a t Ha) as [e1 [E1 Q1]].
    destruct (IH H' (acc ++ (if Spec.missing_fatal structTag (fields cfg) i
                             then [Name i] else [])) (t ++ e1)) as [e2 [E2 Q2]].
    exists (e1 ++ e2). simpl. rewrite (bind_Done _ _ _ _ _ E1), E2.
    split.
    + rewrite <- !app_assoc.
      destruct (Spec.missing_fatal structTag (fields cfg) i); reflexivity.
    + rewrite quiet_app, Q1, Q2. reflexivity.
Qed.

Lemma CheckMissing_run (cfg : Config) (t : trace) :
  exists e,
    CheckMissingAndDepreciated structTag cfg t
    = Done (Spec.missing_error structTag (fields cfg)) (t ++ e)
    /\ quiet e = true.
Proof.
  destruct (CheckMissing_loop_run cfg (seq 0 NumField)) with (acc := @nil string) (t := t)
    as [e [E Q]].
  - apply Forall_forall. intros i Hi. apply in_seq in Hi. lia.
  - exists e. split; [|exact Q].
    unfold CheckMissingAndDepreciated. rewrite (bind_Done _ _ _ _ _ E).
    unfold Spec.missing_error, Spec.fatal_list. rewrite fields_length.
    cbn [app].
    destruct (map Name (filter (Spec.missing_fatal structTag (fields cfg))
                               (seq 0 NumField))); reflexivity.
Qed.

(** ** TrimWhitespace *)

Lemma TrimWhitespace_body_run (i : nat) (c : Config) (a : value) (t : trace) :
  nth_error (fields c) i = Some a ->
  exists c', TrimWhitespace_body structTag i c t
             = Done c' (t ++ Spec.trim_warning structTag i a)
             /\ tt = tt
             /\ fields c' = list_set i (Spec.trim_field structTag i a) (fields c).
Proof.
  intros Ha.
  unfold TrimWhitespace_body, Spec.trim_warning, Spec.trim_field, Spec.trim_annotated.
  rewrite (bind_Done _ _ _ _ _ (Field_run _ _ _ _ Ha)).
  cbn [CanInterface negb]. rewrite length_eqb_0.
  destruct (String.eqb (Tag_Get (structTag i) "trim") ""); cbn [negb andb].
  - exists c. rewrite app_nil_r.
    replace (match a with VString _ => a | _ => a end) with a by (destruct a; reflexivity).
    rewrite (list_set_same _ _ _ Ha). auto.
  - destruct a as [s| | | |]; cbn [kindOf Kind_eqb negb];
      try (exists c; rewrite (list_set_same _ _ _ Ha);
           unfold bind, log_Warn, emit, ret; auto).
    destruct (Field_Set_run c i (VString s) (VString (TrimSpace s)) t Ha eq_refl)
      as [c' [E F]].
    exists c'. rewrite app_nil_r. split; [|auto].
    unfold assert_string. unfold bind at 1. unfold ret at 1.
    unfold Field_SetString.
    rewrite (bind_Done _ _ _ _ _ (Field_run _ _ _ _ Ha)). exact E.
Qed.

Lemma TrimWhitespace_run (cfg : Config) (t : trace) :
  exists c', TrimWhitespace structTag cfg t
             = Done c' (t ++ flat_map (events_at (Spec.trim_warning structTag) cfg)
                                      (seq 0 NumField))
             /\ fields c' = Spec.trim structTag (fields cfg).
Proof.
  destruct (for_fields_all Config unit (fun c => c) (fun _ => tt)
              (fun _ => Spec.trim_field structTag) (Spec.trim_warning structTag)
              (TrimWhitespace_body structTag) TrimWhitespace_body_run cfg t)
    as [c' [E [_ F]]].
  exists c'. split; [exact E | exact F].
Qed.

Lemma quiet_trim_warnings (cfg : Config) (idx : list nat) :
  quiet (flat_map (events_at (Spec.trim_warning structTag) cfg) idx) = true.
Proof.
  induction idx as [|i idx IH]; simpl; auto.
  rewrite quiet_app, IH, andb_true_r.
  unfold events_at, Spec.trim_warning.
  destruct (nth_error (fields cfg) i); auto.
  destruct (Spec.trim_annotated structTag i && negb (Kind_eqb (kindOf v) KString)); auto.
Qed.

End PolicyProofs.

(** ** Uniform computations *)

Lemma uniform_ret {A : Type} (a : A) : uniform (ret a).
Proof. intros t. unfold ret. rewrite app_nil_r. reflexivity. Qed.

Lemma uniform_emit (e : event) : uniform (emit e).
Proof. intros t. reflexivity. Qed.

Lemma uniform_panic {A : Type} (why : string) : uniform (@panic A why).
Proof. intros t. reflexivity. Qed.

Lemma uniform_bind {A B : Type} (m : M A) (f : A -> M B) :
  uniform m -> (forall a, uniform (f a)) -> uniform (bind m f).
Proof.
  intros Hm Hf t. unfold bind. rewrite (Hm t).
  destruct (m []) as [a e|why]; auto.
  rewrite (Hf a (t ++ e)), (Hf a e).
  destruct (f a []) as [b e'|why]; auto.
  rewrite app_assoc. reflexivity.
Qed.

Lemma uniform_for_fields {S : Type} (body : nat -> S -> M S) (idx : list nat) :
  (forall i s, uniform (body i s)) -> forall s, uniform (for_fields body idx s).
Proof.
  intros Hb. induction idx as [|i idx IH]; intros s; simpl.
  - apply uniform_ret.
  - apply uniform_bind; auto.
Qed.

Lemma uniform_run {A : Type} (m : M A) (a : A) (t0 e : trace) :
  uniform m -> m t0 = Done a (t0 ++ e) -> forall t, m t = Done a (t ++ e).
Proof.
  intros U H t. rewrite (U t). rewrite (U t0) in H.
  destruct (m []) as [a' e'|why]; [|discriminate].
  injection H as -> H. apply app_inv_head in H. subst. reflexivity.
Qed.

Create HintDb uniform.
#[local] Hint Resolve uniform_ret uniform_emit uniform_panic : uniform.

Ltac uniform_step :=
  match goal with
  | |- uniform (bind _ _) => apply uniform_bind; [|intros]
  | |- uniform (for_fields _ _ _) => apply uniform_for_fields; intros
  | |- uniform (if ?b then _ else _) => destruct b
  | |- uniform (match ?x with _ => _ end) => destruct x
  | |- uniform (let (_, _) := ?x in _) => destruct x
  | |- uniform _ => solve [auto with uniform]
  end.

Ltac prove_uniform := repeat uniform_step.

Lemma uniform_Field (c : Config) (i : nat) : uniform (Field c i).
Proof. unfold Field. prove_uniform. Qed.

Lemma uniform_Field_Set (c : Config) (i : nat) (x : value) : uniform (Field_Set c i x).
Proof. unfold Field_Set. prove_uniform. Qed.

#[local] Hint Resolve uniform_Field uniform_Field_Set : uniform.

Lemma uniform_Merge (A B : Config) : uniform (Merge A B).
Proof. unfold Merge, Merge_loop. prove_uniform. unfold Merge_body. prove_uniform. Qed.

Lemma uniform_Complete (c : Config) : uniform (Complete c).
Proof.
  unfold Complete. generalize (seq 0 NumField). intros idx.
  induction idx; simpl; prove_uniform.
Qed.

Lemma uniform_CheckMissing (structTag : nat -> StructTag) (c : Config) :
  uniform (CheckMissingAndDepreciated structTag c).
Proof.
  unfold CheckMissingAndDepreciated. prove_uniform.
  unfold CheckMissing_body, log_Warn, log_Crit. prove_uniform.
Qed.

Lemma uniform_TrimWhitespace (structTag : nat -> StructTag) (c : Config) :
  uniform (TrimWhitespace structTag c).
Proof.
  unfold TrimWhitespace. prove_uniform.
  unfold TrimWhitespace_body, log_Warn, assert_string, Field_SetString.
  prove_uniform.
Qed.

#[local] Hint Resolve uniform_Merge uniform_Complete uniform_CheckMissing
  uniform_TrimWhitespace : uniform.

Lemma uniform_FileConfig (json : Json) (w : World) : uniform (FileConfig json w).
Proof. unfold FileConfig, log_Error. prove_uniform. Qed.

Lemma uniform_EC2MetadataConfig (w : World) : uniform (EC2MetadataConfig w).
Proof. unfold EC2MetadataConfig, log_Crit. prove_uniform. Qed.

Lemma uniform_EnvironmentConfig (json : Json) (w : World) :
  uniform (EnvironmentConfig json w).
Proof. unfold EnvironmentConfig, log_Warn. prove_uniform. Qed.

#[local] Hint Resolve uniform_FileConfig uniform_EC2MetadataConfig
  uniform_EnvironmentConfig : uniform.

Lemma uniform_NewConfig_body (json : Json) (w : World) (ctmp : Config) :
  uniform (NewConfig_body json w ctmp).
Proof. unfold NewConfig_body. prove_uniform. Qed.

Lemma uniform_NewConfig_deferred (structTag : nat -> StructTag) (c : Config) :
  uniform (NewConfig_deferred structTag c).
Proof. unfold NewConfig_deferred. prove_uniform. Qed.

#[local] Hint Resolve uniform_NewConfig_body uniform_NewConfig_deferred : uniform.

Lemma uniform_NewConfig (structTag : nat -> StructTag) (json : Json) (w : World) :
  uniform (NewConfig structTag json w).
Proof. unfold NewConfig. prove_uniform. Qed.

(** ** The providers *)

Lemma EnvironmentConfig_run (json : Json) (w : World) (t : trace) :
  exists c,
    EnvironmentConfig json w t = Done c (t ++ env_events json w)
    /\ ClusterArn c = ""
    /\ AWSRegion c = Getenv w "AWS_DEFAULT_REGION"
    /\ Checkpoint c = ParseBool (Getenv w "ECS_CHECKPOINT")
                                (negb (String.eqb (Getenv w "ECS_DATADIR") ""))
    /\ ReservedPorts c = fst (Decoder_Decode json (Getenv w "ECS_RESERVED_PORTS"))
    /\ ReservedPortsUDP c = fst (Decoder_Decode json (Getenv w "ECS_RESERVED_PORTS_UDP"))
    /\ ReservedMemory c =
       (if String.eqb (Getenv w "ECS_RESERVED_MEMORY") "" then 0%Z
        else match strconv_ParseUint16 (Getenv w "ECS_RESERVED_MEMORY") with
             | (n, None) => to_uint16 n
             | (_, Some _) => 0%Z
             end).
Proof.
  unfold EnvironmentConfig, env_events, ports_events, memory_events.
  destruct (Decoder_Decode json (Getenv w "ECS_RESERVED_PORTS")) as [p1 e1].
  destruct (Decoder_Decode json (Getenv w "ECS_RESERVED_PORTS_UDP")) as [p2 e2].
  destruct (strconv_ParseUint16 (Getenv w "ECS_RESERVED_MEMORY")) as [n e3].
  cbn [fst snd].
  destruct (neither_EOF_nor_nil e1), (neither_EOF_nor_nil e2),
    (String.eqb (Getenv w "ECS_RESERVED_MEMORY") ""), e3,
    (String.eqb (Getenv w "ECS_DATADIR") "");
    unfold bind, log_Warn, emit, ret; cbn [negb];
    rewrite <- ?app_assoc; cbn [app]; rewrite ?app_nil_r;
    eexists; (split; [reflexivity|]); cbn; repeat split.
Qed.

Lemma quiet_env_events (json : Json) (w : World) : quiet (env_events json w) = true.
Proof.
  unfold env_events, ports_events, memory_events.
  rewrite !quiet_app.
  repeat match goal with
         | |- context [if ?b then _ else _] => destruct b
         | |- context [match ?o with Some _ => _ | None => _ end] => destruct o
         end; reflexivity.
Qed.

Lemma EC2MetadataConfig_run (w : World) :
  exists md em,
    (forall t, EC2MetadataConfig w t = Done md (t ++ em))
    /\ file_calls em = 0 /\ metadata_calls em = 1
    /\ md = match identity_document w with
            | inl _ => emptyConfig
            | inr region => with_AWSRegion emptyConfig region
            end.
Proof.
  unfold EC2MetadataConfig.
  destruct (identity_document w) as [err|region]; do 2 eexists; split.
  - intros t. unfold bind, log_Crit, emit, ret. rewrite <- app_assoc. reflexivity.
  - repeat split.
  - intros t. unfold bind, emit, ret. reflexivity.
  - repeat split.
Qed.

Lemma FileConfig_run (json : Json) (w : World) :
  exists file ef,
    (forall t, FileConfig json w t = Done file (t ++ ef))
    /\ file_calls ef = 1 /\ metadata_calls ef = 0.
Proof.
  unfold FileConfig. fold default_path. fold (config_path w).
  destruct (file_at w (config_path w)) as [err|err|data].
  - do 2 eexists. split; [intros t|split]; reflexivity.
  - do 2 eexists. split; [intros t|split].
    + unfold bind, log_Error, emit, ret. rewrite <- !app_assoc. reflexivity.
    + reflexivity.
    + reflexivity.
  - destruct (String.eqb (TrimSpace data) "").
    + do 2 eexists. split; [intros t|split].
      * unfold bind, emit, ret. rewrite <- !app_assoc. reflexivity.
      * reflexivity.
      * reflexivity.
    + destruct (json_Unmarshal json data emptyConfig) as [config [e|]];
        destruct (ZeroOrNil (VString (Cluster config))
                  && negb (ZeroOrNil (VString (ClusterArn config))));
        do 2 eexists; (split; [intros t|split]);
        try (unfold bind, log_Error, emit, ret; rewrite <- !app_assoc; reflexivity);
        reflexivity.
Qed.

(** ** The runs, whatever the trace so far *)

Lemma Merge_total (A B : Config) :
  exists c, fields c = Spec.merge (fields A) (fields B)
            /\ forall t, Merge A B t = Done c t.
Proof.
  destruct (Merge_run A B []) as [c [_ F]].
  exists c. split; [exact F|]. intros t.
  destruct (Merge_run A B t) as [c' [E F']].
  rewrite E. f_equal. apply fields_inj. congruence.
Qed.

Lemma TrimWhitespace_total (structTag : nat -> StructTag) (cfg : Config) :
  exists c', fields c' = Spec.trim structTag (fields cfg)
             /\ forall t, TrimWhitespace structTag cfg t
                          = Done c' (t ++ flat_map (events_at (Spec.trim_warning structTag) cfg)
                                                   (seq 0 NumField)).
Proof.
  destruct (TrimWhitespace_run structTag cfg []) as [c [_ F]].
  exists c. split; [exact F|]. intros t.
  destruct (TrimWhitespace_run structTag cfg t) as [c' [E F']].
  rewrite E. f_equal. apply fields_inj. congruence.
Qed.

Lemma CheckMissing_total (structTag : nat -> StructTag) (cfg : Config) :
  exists e, quiet e = true
            /\ forall t, CheckMissingAndDepreciated structTag cfg t
                         = Done (Spec.missing_error structTag (fields cfg)) (t ++ e).
Proof.
  destruct (CheckMissing_run structTag cfg []) as [e [E Q]].
  exists e. split; [exact Q|].
  apply uniform_run with (t0 := []); auto with uniform.
Qed.

Lemma NewConfig_body_run (json : Json) (w : World) (ctmp : Config) :
  exists acc e,
    (forall t, NewConfig_body json w ctmp t = Done acc (t ++ e))
    /\ if Spec.complete (fields ctmp) then acc = ctmp /\ e = []
       else exists file ef merged,
           (forall t, FileConfig json w t = Done file (t ++ ef))
           /\ file_calls ef = 1 /\ metadata_calls ef = 0
           /\ fields merged = Spec.merge (fields ctmp) (fields file)
           /\ if String.eqb (AWSRegion merged) ""
              then exists md em,
                  (forall t, EC2MetadataConfig w t = Done md (t ++ em))
                  /\ file_calls em = 0 /\ metadata_calls em = 1
                  /\ fields acc = Spec.merge (fields merged) (fields md)
                  /\ e = ef ++ em
              else acc = merged /\ e = ef.
Proof.
  unfold NewConfig_body.
  destruct (Spec.complete (fields ctmp)) eqn:C.
  - exists ctmp, []. split; [|auto]. intros t.
    rewrite (bind_Done _ _ _ _ _ (Complete_run ctmp t)), C.
    unfold ret. rewrite app_nil_r. reflexivity.
  - destruct (FileConfig_run json w) as [file [ef [EF [F1 F2]]]].
    destruct (Merge_total ctmp file) as [merged [FM EM]].
    destruct (String.eqb (AWSRegion merged) "") eqn:R.
    + destruct (EC2MetadataConfig_run w) as [md [em [EMD [M1 [M2 _]]]]].
      destruct (Merge_total merged md) as [acc [FA EA]].
      exists acc, (ef ++ em). split.
      * intros t.
        rewrite (bind_Done _ _ _ _ _ (Complete_run ctmp t)), C.
        rewrite (bind_Done _ _ _ _ _ (EF t)).
        rewrite (bind_Done _ _ _ _ _ (EM _)), R.
        rewrite (bind_Done _ _ _ _ _ (EMD _)).
        rewrite EA, app_assoc. reflexivity.
      * exists file, ef, merged. rewrite R. repeat split; auto.
        exists md, em. repeat split; auto.
    + exists merged, ef. split.
      * intros t.
        rewrite (bind_Done _ _ _ _ _ (Complete_run ctmp t)), C.
        rewrite (bind_Done _ _ _ _ _ (EF t)).
        rewrite (bind_Done _ _ _ _ _ (EM _)), R. reflexivity.
      * exists file, ef, merged. rewrite R. repeat split; auto.
Qed.

Lemma NewConfig_deferred_run (structTag : nat -> StructTag) (acc : Config) :
  exists c1 cfg e,
    fields c1 = Spec.trim structTag (fields acc)
    /\ fields cfg = Spec.merge (fields c1) (fields DefaultConfig)
    /\ quiet e = true
    /\ forall t, NewConfig_deferred structTag acc t
                 = Done (cfg, Spec.missing_error structTag (fields c1)) (t ++ e).
Proof.
  destruct (TrimWhitespace_total structTag acc) as [c1 [F1 E1]].
  destruct (CheckMissing_total structTag c1) as [e2 [Q2 E2]].
  destruct (Merge_total c1 DefaultConfig) as [cfg [F3 E3]].
  exists c1, cfg, (flat_map (events_at (Spec.trim_warning structTag) acc)
                            (seq 0 NumField) ++ e2).
  repeat split; auto.
  - rewrite quiet_app, quiet_trim_warnings, Q2. reflexivity.
  - intros t. unfold NewConfig_deferred.
    rewrite (bind_Done _ _ _ _ _ (E1 t)).
    rewrite (bind_Done _ _ _ _ _ (E2 _)).
    rewrite (bind_Done _ _ _ _ _ (E3 _)).
    unfold ret. rewrite app_assoc. reflexivity.
Qed.

Lemma NewConfig_run (structTag : nat -> StructTag) (json : Json) (w : World) :
  exists ctmp acc e1 c1 cfg e2,
    (forall t, EnvironmentConfig json w t = Done ctmp (t ++ env_events json w))
    /\ (forall t, NewConfig_body json w ctmp t = Done acc (t ++ e1))
    /\ fields c1 = Spec.trim structTag (fields acc)
    /\ fields cfg = Spec.merge (fields c1) (fields DefaultConfig)
    /\ quiet e2 = true
    /\ forall t, NewConfig structTag json w t
                 = Done (cfg, Spec.missing_error structTag (fields c1))
                        (t ++ env_events json w ++ e1 ++ e2).
Proof.
  destruct (EnvironmentConfig_run json w []) as [ctmp [E0 _]].
  assert (E0' : forall t, EnvironmentConfig json w t = Done ctmp (t ++ env_events json w)).
  { apply uniform_run with (t0 := []); auto with uniform. }
  destruct (NewConfig_body_run json w ctmp) as [acc [e1 [E1 _]]].
  destruct (NewConfig_deferred_run structTag acc) as [c1 [cfg [e2 [F1 [F2 [Q E2]]]]]].
  exists ctmp, acc, e1, c1, cfg, e2. repeat split; auto.
  intros t. unfold NewConfig.
  rewrite (bind_Done _ _ _ _ _ (E0' t)).
  rewrite (bind_Done _ _ _ _ _ (E1 _)).
  rewrite E2, <- !app_assoc. reflexivity.
Qed.

(** * The claims *)

(** C2.  [Merge(A, B)] never panics and logs nothing; in the record it
    leaves, field [i] is [B]'s field [i] when [A]'s was empty and [A]'s own
    otherwise, for every field index [i]; the right-hand record the loop
    reads is the same after the loop as before. *)
Theorem Merge_fieldwise (A B : Config) (t : trace) :
  exists s,
    Merge_loop A B t = Done s t
    /\ Merge A B t = Done (left s) t
    /\ right s = B
    /\ forall i,
        nth_error (fields (left s)) i =
        match nth_error (fields A) i, nth_error (fields B) i with
        | Some a, Some b => Some (if ZeroOrNil a then b else a)
        | _, _ => None
        end.
Proof.
  destruct (Merge_loop_run A B t) as [s [E [Hr F]]].
  exists s. repeat split; auto.
  - unfold Merge. rewrite (bind_Done _ _ _ _ _ E). reflexivity.
  - intros i. rewrite F. apply nth_error_merge.
Qed.

(** C3.  [CheckMissingAndDepreciated] never panics and only logs; it
    returns one error, whose message is "Missing required fields: " followed
    by the names, joined by ", " and in declaration order, of all the fields
    that are empty and tagged [missing:"fatal"]; it returns nil exactly when
    there is no such field. *)
Theorem CheckMissing_aggregates (structTag : nat -> StructTag) (cfg : Config) (t : trace) :
  let names :=
    map Name (filter (Spec.missing_fatal structTag (fields cfg)) (seq 0 NumField)) in
  exists e,
    CheckMissingAndDepreciated structTag cfg t
    = Done (match names with
            | [] => None
            | _ => Some (errorString
                           ("Missing required fields: " ++ String.concat ", " names)%string)
            end) (t ++ e)
    /\ quiet e = true
    /\ (forall i, Spec.missing_fatal structTag (fields cfg) i = true -> In (Name i) names)
    /\ (names = [] <-> forall i, Spec.missing_fatal structTag (fields cfg) i = false).
Proof.
  intros names.
  destruct (CheckMissing_run structTag cfg t) as [e [E Q]].
  assert (R : forall i, Spec.missing_fatal structTag (fields cfg) i = true ->
                        In i (seq 0 NumField)).
  { intros i H. unfold Spec.missing_fatal in H.
    destruct (nth_error (fields cfg) i) eqn:N; [|discriminate].
    apply in_seq. rewrite <- (fields_length cfg).
    split; [lia|]. apply nth_error_Some. congruence. }
  exists e. split; [|split; [exact Q|split; [|split]]].
  - rewrite E. unfold Spec.missing_error, Spec.fatal_list.
    rewrite fields_length. fold names. destruct names; reflexivity.
  - intros i H. apply in_map. apply filter_In. auto.
  - intros H i.
    destruct (Spec.missing_fatal structTag (fields cfg) i) eqn:M; auto.
    assert (I : In (Name i) names) by (apply in_map; apply filter_In; auto).
    rewrite H in I. destruct I.
  - intros H. unfold names.
    destruct (filter (Spec.missing_fatal structTag (fields cfg)) (seq 0 NumField))
      as [|i l] eqn:F; auto.
    assert (I : In i (filter (Spec.missing_fatal structTag (fields cfg)) (seq 0 NumField)))
      by (rewrite F; left; auto).
    apply filter_In in I. destruct I as [_ I]. rewrite H in I. discriminate.
Qed.

(** C6.  If [Complete(A)] is true then [Merge(A, B)] succeeds, leaves [A]
    as it was, and [Complete] is true of the result, whatever [B] holds. *)
Theorem Complete_Merge (A B : Config) (t : trace) :
  Complete A t = Done true t ->
  exists c, Merge A B t = Done c t /\ c = A /\ Complete c t = Done true t.
Proof.
  intros H.
  assert (HC : Spec.complete (fields A) = true)
    by (rewrite Complete_run in H; congruence).
  destruct (Merge_run A B t) as [c [E F]].
  exists c. rewrite merge_complete in F; auto.
  apply fields_inj in F. subst c. repeat split; auto.
Qed.

Lemma Complete_Merge_witness :
  Complete full_config [] = Done true []
  /\ exists c, Merge full_config DefaultConfig [] = Done c []
               /\ c = full_config /\ Complete c [] = Done true [].
Proof.
  split; [reflexivity|].
  apply (Complete_Merge full_config DefaultConfig []). reflexivity.
Defined.

(** C8.  [TrimWhitespace] never panics; every string field whose [trim] tag
    is set is replaced by its value with leading and trailing white space
    stripped, every other field is left as it was, and the only events are
    the warnings "Cannot trim non-string field", one for each field that has
    the tag and is not a string. *)
Theorem TrimWhitespace_fieldwise (structTag : nat -> StructTag) (cfg : Config) (t : trace) :
  exists c',
    TrimWhitespace structTag cfg t
    = Done c' (t ++ flat_map (events_at (Spec.trim_warning structTag) cfg) (seq 0 NumField))
    /\ forall i,
        nth_error (fields c') i =
        match nth_error (fields cfg) i with
        | Some (VString s) =>
          Some (VString (if Spec.trim_annotated structTag i then TrimSpace s else s))
        | other => other
        end.
Proof.
  destruct (TrimWhitespace_run structTag cfg t) as [c' [E F]].
  exists c'. split; [exact E|].
  intros i. rewrite F. unfold Spec.trim. rewrite nth_error_imap.
  change (0 + i) with i.
  destruct (nth_error (fields cfg) i) as [[s| | | |]|]; simpl; auto.
  destruct (Spec.trim_annotated structTag i); reflexivity.
Qed.

(** ** strconv.ParseUint against the value of the digits *)

Lemma digitVal_range (c : ascii) : isDigit c = true -> (0 <= digitVal c <= 9)%Z.
Proof.
  unfold isDigit, digitVal. intros H. apply andb_prop in H. destruct H as [H1 H2].
  apply N.leb_le in H1. apply N.leb_le in H2. lia.
Qed.

Lemma decimal_from_ge (s : string) (n v : Z) :
  (0 <= n)%Z -> Spec.decimal_from n s = Some v -> (n <= v)%Z.
Proof.
  revert n; induction s as [|c r IH]; simpl; intros n Hn H.
  - injection H as <-. lia.
  - destruct (isDigit c) eqn:D; [|discriminate].
    pose proof (digitVal_range c D).
    apply IH in H; lia.
Qed.

Lemma ParseUint_loop_decimal (s : string) (n : Z) :
  (0 <= n <= maxUint16)%Z ->
  match Spec.decimal_from n s with
  | Some v =>
    if (v <=? maxUint16)%Z then ParseUint_loop n s = (v, None)
    else exists x e, ParseUint_loop n s = (x, Some e)
  | None => exists x e, ParseUint_loop n s = (x, Some e)
  end.
Proof.
  revert n; induction s as [|c r IH]; simpl; intros n Hn.
  - destruct (n <=? maxUint16)%Z eqn:L; auto. apply Z.leb_gt in L. lia.
  - destruct (isDigit c) eqn:D; [|eauto].
    pose proof (digitVal_range c D) as Hd.
    destruct (n * 10 + digitVal c >? maxUint16)%Z eqn:G.
    + apply Z.gtb_lt in G.
      destruct (Spec.decimal_from (n * 10 + digitVal c) r) as [v|] eqn:V; [|eauto].
      apply decimal_from_ge in V; [|lia].
      destruct (v <=? maxUint16)%Z eqn:L; [|eauto].
      apply Z.leb_le in L. lia.
    + apply IH. rewrite Z.gtb_ltb in G. apply Z.ltb_ge in G. lia.
Qed.

Lemma ParseUint16_decimal (s : string) :
  match Spec.decimal s with
  | Some v =>
    if (v <=? maxUint16)%Z then strconv_ParseUint16 s = (v, None)
    else exists x e, strconv_ParseUint16 s = (x, Some e)
  | None => exists x e, strconv_ParseUint16 s = (x, Some e)
  end.
Proof.
  destruct s as [|c r]; [simpl; eauto|].
  unfold Spec.decimal, strconv_ParseUint16.
  apply ParseUint_loop_decimal. unfold maxUint16. lia.
Qed.

(** ** Which warning is which *)

Lemma logged_app (lvl : level) (msg : string) (a b : trace) :
  logged lvl msg (a ++ b) = logged lvl msg a || logged lvl msg b.
Proof. apply existsb_app. Qed.

Lemma logged_ports_events (json : Json) (msg var' val : string) :
  logged Warn msg (ports_events json var' val)
  = String.eqb (ports_warning var') msg
    && neither_EOF_nor_nil (snd (Decoder_Decode json val)).
Proof.
  unfold ports_events.
  destruct (neither_EOF_nor_nil (snd (Decoder_Decode json val))); simpl.
  - rewrite orb_false_r, andb_true_r. reflexivity.
  - rewrite andb_false_r. reflexivity.
Qed.

Lemma logged_memory_events (msg val : string) :
  logged Warn msg (memory_events val)
  = String.eqb memory_warning msg
    && negb (String.eqb val "")
    && match snd (strconv_ParseUint16 val) with Some _ => true | None => false end.
Proof.
  unfold memory_events.
  destruct (String.eqb val ""); simpl.
  - rewrite andb_false_r. reflexivity.
  - destruct (snd (strconv_ParseUint16 val)); simpl.
    + rewrite orb_false_r, !andb_true_r. reflexivity.
    + rewrite andb_false_r. reflexivity.
Qed.

(** C7.  [EnvironmentConfig] sets [Checkpoint] to the value of
    ECS_CHECKPOINT when that variable holds a boolean; otherwise to false
    when ECS_DATADIR is unset (empty) and to true when it is set. *)
Theorem EnvironmentConfig_Checkpoint (json : Json) (w : World) (t : trace) :
  exists c,
    EnvironmentConfig json w t = Done c (t ++ env_events json w)
    /\ Checkpoint c =
       match strconv_ParseBool (TrimSpace (Getenv w "ECS_CHECKPOINT")) with
       | Some explicit => explicit
       | None => negb (String.eqb (Getenv w "ECS_DATADIR") "")
       end.
Proof.
  destruct (EnvironmentConfig_run json w t) as [c [E [_ [_ [H _]]]]].
  exists c. split; [exact E|]. rewrite H. reflexivity.
Qed.

(** C10.  [EnvironmentConfig] sets [ReservedMemory] to the exact value of
    ECS_RESERVED_MEMORY, with no warning, when the variable is a non-empty
    string of decimal digits whose value is at most 65535; to 0 with no
    warning when it is empty; and to 0 with the warning logged for every
    other value, a larger number included: no value is reduced modulo
    2^16. *)
Theorem EnvironmentConfig_ReservedMemory (json : Json) (w : World) (t : trace) :
  let val := Getenv w "ECS_RESERVED_MEMORY" in
  let warned := logged Warn memory_warning (env_events json w) in
  exists c,
    EnvironmentConfig json w t = Done c (t ++ env_events json w)
    /\ match Spec.decimal val with
       | Some n =>
         if (n <=? 65535)%Z then ReservedMemory c = n /\ warned = false
         else ReservedMemory c = 0%Z /\ warned = true
       | None => ReservedMemory c = 0%Z /\ warned = negb (String.eqb val "")
       end.
Proof.
  intros val warned.
  destruct (EnvironmentConfig_run json w t) as [c [E [_ [_ [_ [_ [_ H]]]]]]].
  exists c. split; [exact E|].
  assert (W : warned = negb (String.eqb val "")
                       && match snd (strconv_ParseUint16 val) with
                          | Some _ => true
                          | None => false
                          end).
  { unfold warned, env_events.
    rewrite !logged_app, !logged_ports_events, logged_memory_events.
    fold val. rewrite String.eqb_refl.
    replace (String.eqb (ports_warning "ECS_RESERVED_PORTS") memory_warning)
      with false by reflexivity.
    replace (String.eqb (ports_warning "ECS_RESERVED_PORTS_UDP") memory_warning)
      with false by reflexivity.
    reflexivity. }
  fold val in H. rewrite H, W. clear H W.
  pose proof (ParseUint16_decimal val) as P.
  destruct val as [|ch rest] eqn:V; [simpl; auto|].
  cbn [String.eqb negb andb].
  destruct (Spec.decimal (String ch rest)) as [n|] eqn:D.
  - change maxUint16 with 65535%Z in P.
    destruct (n <=? 65535)%Z eqn:L.
    + rewrite P. cbn [snd]. split; [|reflexivity].
      apply Z.leb_le in L.
      assert (0 <= n)%Z by (apply (decimal_from_ge (String ch rest) 0); [lia | exact D]).
      unfold to_uint16. apply Z.mod_small. lia.
    + destruct P as [x [e P]]. rewrite P. auto.
  - destruct P as [x [e P]]. rewrite P. auto.
Qed.

(** C9, as amended.  For ECS_RESERVED_PORTS and ECS_RESERVED_PORTS_UDP alike:
    when the variable is empty or holds nothing but JSON white space, the
    field is left nil and no warning is logged; when it decodes, the field
    is what was decoded and no warning is logged; when the decoder returns
    an error on any other value, the warning is logged. *)
Theorem EnvironmentConfig_ReservedPorts (json : Json) (w : World) (t : trace) :
  exists c,
    EnvironmentConfig json w t = Done c (t ++ env_events json w)
    /\ ports_outcome json (Getenv w "ECS_RESERVED_PORTS") (ReservedPorts c)
         (logged Warn (ports_warning "ECS_RESERVED_PORTS") (env_events json w))
    /\ ports_outcome json (Getenv w "ECS_RESERVED_PORTS_UDP") (ReservedPortsUDP c)
         (logged Warn (ports_warning "ECS_RESERVED_PORTS_UDP") (env_events json w)).
Proof.
  destruct (EnvironmentConfig_run json w t) as [c [E [_ [_ [_ [H1 [H2 _]]]]]]].
  exists c. split; [exact E|].
  unfold env_events. rewrite !logged_app, !logged_ports_events, !logged_memory_events.
  rewrite !String.eqb_refl.
  replace (String.eqb (ports_warning "ECS_RESERVED_PORTS_UDP")
                      (ports_warning "ECS_RESERVED_PORTS")) with false by reflexivity.
  replace (String.eqb (ports_warning "ECS_RESERVED_PORTS")
                      (ports_warning "ECS_RESERVED_PORTS_UDP")) with false by reflexivity.
  replace (String.eqb memory_warning (ports_warning "ECS_RESERVED_PORTS"))
    with false by reflexivity.
  replace (String.eqb memory_warning (ports_warning "ECS_RESERVED_PORTS_UDP"))
    with false by reflexivity.
  cbn [andb orb]. rewrite !orb_false_r.
  rewrite H1, H2. unfold ports_outcome, Decoder_Decode.
  split.
  - destruct (blank (Getenv w "ECS_RESERVED_PORTS")); [auto|].
    destruct (json_Decode json (Getenv w "ECS_RESERVED_PORTS")) as [p [[]|]]; auto.
  - destruct (blank (Getenv w "ECS_RESERVED_PORTS_UDP")); [auto|].
    destruct (json_Decode json (Getenv w "ECS_RESERVED_PORTS_UDP")) as [p [[]|]]; auto.
Qed.

(** C9 as stated fails twice.  A value of one space is not the empty string
    and not a JSON array, the decoder returns an error for it, and no
    warning is logged.  The value [70000] is not an array of 16-bit numbers:
    the warning is logged and the field is left with one element, not
    empty. *)
Lemma ReservedPorts_claim_fails :
  (let w := world_of_env (env_of "ECS_RESERVED_PORTS" " ") in
   String.eqb (Getenv w "ECS_RESERVED_PORTS") "" = false
   /\ snd (Decoder_Decode sample_json (Getenv w "ECS_RESERVED_PORTS")) = Some io_EOF
   /\ exists c e,
       EnvironmentConfig sample_json w [] = Done c e
       /\ logged Warn (ports_warning "ECS_RESERVED_PORTS") e = false)
  /\ (let w := world_of_env (env_of "ECS_RESERVED_PORTS" "[70000]") in
      exists c e,
        EnvironmentConfig sample_json w [] = Done c e
        /\ logged Warn (ports_warning "ECS_RESERVED_PORTS") e = true
        /\ ReservedPorts c = Some [0%Z]
        /\ ZeroOrNil (VUint16s (ReservedPorts c)) = false).
Proof.
  split.
  - split; [reflexivity|]. split; [reflexivity|].
    do 2 eexists. split; [vm_compute; reflexivity|]. reflexivity.
  - do 2 eexists. split; [vm_compute; reflexivity|]. repeat split.
Qed.

(** C5, as amended.  [FileConfig] opens the configuration file.  When the
    file cannot be opened it returns the empty record and logs nothing; when
    it opens and cannot be read it returns the empty record and logs an
    error; when it holds nothing but white space it returns the empty record
    and logs nothing; when it decodes, nothing is logged and the record is
    the decoded one, with the legacy [ClusterArn] copied into [Cluster] if
    [Cluster] is empty and [ClusterArn] is not; when the decoder returns an
    error, an error is logged. *)
Theorem FileConfig_cases (json : Json) (w : World) (t : trace) :
  let path := config_path w in
  exists c e,
    FileConfig json w t = Done c (t ++ Open path :: e)
    /\ match file_at w path with
       | OpenFails _ => c = emptyConfig /\ e = []
       | ReadFails err =>
         c = emptyConfig
         /\ e = [ReadAll path;
                 Log Error "Unable to read config file" [AStr "err"; AErr err]]
       | Contents data =>
         if String.eqb (TrimSpace data) "" then c = emptyConfig /\ e = [ReadAll path]
         else match json_Unmarshal json data emptyConfig with
              | (decoded, None) =>
                e = [ReadAll path]
                /\ c = (if String.eqb (Cluster decoded) ""
                           && negb (String.eqb (ClusterArn decoded) "")
                        then with_Cluster decoded (ClusterArn decoded)
                        else decoded)
              | (_, Some _) => logged Error "Error reading config json data" e = true
              end
       end.
Proof.
  intros path. unfold FileConfig. fold default_path. fold (config_path w). fold path.
  destruct (file_at w path) as [err|err|data].
  - exists emptyConfig, []. split; auto.
  - do 2 eexists. split; [|split; reflexivity].
    unfold bind, log_Error, emit, ret. rewrite <- !app_assoc. reflexivity.
  - destruct (String.eqb (TrimSpace data) "").
    + do 2 eexists. split; [|split; reflexivity].
      unfold bind, emit, ret. rewrite <- !app_assoc. reflexivity.
    + destruct (json_Unmarshal json data emptyConfig) as [decoded [err|]].
      * destruct (ZeroOrNil (VString (Cluster decoded))
                  && negb (ZeroOrNil (VString (ClusterArn decoded))));
          do 2 eexists;
          (split; [unfold bind, log_Error, emit, ret; rewrite <- !app_assoc; reflexivity
                  |reflexivity]).
      * cbn [ZeroOrNil].
        destruct (String.eqb (Cluster decoded) ""
                  && negb (String.eqb (ClusterArn decoded) ""));
          do 2 eexists; (split; [|split; reflexivity]);
          unfold bind, emit, ret; rewrite <- !app_assoc; reflexivity.
Qed.

(** C5 as stated fails twice.  A file that opens and cannot be read gives
    the empty record with an error logged.  A document whose [Checkpoint] is
    a string is malformed: an error is logged and the record returned holds
    the [Cluster] the decoder had read, so it is not the empty record. *)
Lemma FileConfig_claim_fails :
  (exists e,
      FileConfig sample_json
                 (world_of_file (ReadFails (otherError "read: is a directory"))) []
      = Done emptyConfig e
      /\ logged Error "Unable to read config file" e = true)
  /\ (exists c e,
         FileConfig sample_json (world_of_file (Contents doc_type_mismatch)) []
         = Done c e
         /\ logged Error "Error reading config json data" e = true
         /\ Cluster c = "c1"
         /\ c <> emptyConfig).
Proof.
  split.
  - eexists. split; [vm_compute; reflexivity | reflexivity].
  - do 2 eexists. split; [vm_compute; reflexivity|].
    split; [reflexivity|]. split; [reflexivity|]. discriminate.
Qed.

(** C4.  From any record [ctmp] of the environment: if [ctmp] is complete,
    the body of [NewConfig] keeps it and calls neither [FileConfig] nor
    [EC2MetadataConfig]; otherwise it calls [FileConfig] once and merges its
    record, and calls [EC2MetadataConfig], once and merging its record,
    exactly when [AWSRegion] is empty after that merge.  Around the body,
    [NewConfig] calls neither provider: its file and metadata calls are
    those of the body on the record [EnvironmentConfig] returned. *)
Theorem NewConfig_provider_calls (structTag : nat -> StructTag) (json : Json) (w : World) :
  (forall ctmp, exists acc e,
      (forall t, NewConfig_body json w ctmp t = Done acc (t ++ e))
      /\ if Spec.complete (fields ctmp)
         then acc = ctmp /\ file_calls e = 0 /\ metadata_calls e = 0
         else exists file ef merged,
             (forall t, FileConfig json w t = Done file (t ++ ef))
             /\ fields merged = Spec.merge (fields ctmp) (fields file)
             /\ file_calls e = 1
             /\ if String.eqb (AWSRegion merged) ""
                then metadata_calls e = 1
                     /\ exists md em,
                         (forall t, EC2MetadataConfig w t = Done md (t ++ em))
                         /\ fields acc = Spec.merge (fields merged) (fields md)
                else metadata_calls e = 0 /\ acc = merged)
  /\ exists ctmp acc e1 cfg err e,
      (forall t, EnvironmentConfig json w t = Done ctmp (t ++ env_events json w))
      /\ (forall t, NewConfig_body json w ctmp t = Done acc (t ++ e1))
      /\ (forall t, NewConfig structTag json w t = Done (cfg, err) (t ++ e))
      /\ file_calls e = file_calls e1
      /\ metadata_calls e = metadata_calls e1.
Proof.
  split.
  - intros ctmp.
    destruct (NewConfig_body_run json w ctmp) as [acc [e [E H]]].
    exists acc, e. split; [exact E|].
    destruct (Spec.complete (fields ctmp)).
    + destruct H as [-> ->]. auto.
    + destruct H as [file [ef [merged [EF [F1 [F2 [FM H]]]]]]].
      exists file, ef, merged. split; [exact EF|]. split; [exact FM|].
      destruct (String.eqb (AWSRegion merged) "").
      * destruct H as [md [em [EMD [M1 [M2 [FA ->]]]]]].
        rewrite file_calls_app, metadata_calls_app, F1, F2, M1, M2.
        split; [reflexivity|]. split; [reflexivity|].
        exists md, em. auto.
      * destruct H as [-> ->]. auto.
  - destruct (NewConfig_run structTag json w)
      as [ctmp [acc [e1 [c1 [cfg [e2 [E0 [E1 [_ [_ [Q E]]]]]]]]]]].
    exists ctmp, acc, e1, cfg, (Spec.missing_error structTag (fields c1)),
      (env_events json w ++ e1 ++ e2).
    repeat split; auto.
    + rewrite !file_calls_app.
      destruct (quiet_no_calls _ (quiet_env_events json w)) as [-> _].
      destruct (quiet_no_calls _ Q) as [-> _]. lia.
    + rewrite !metadata_calls_app.
      destruct (quiet_no_calls _ (quiet_env_events json w)) as [_ ->].
      destruct (quiet_no_calls _ Q) as [_ ->]. lia.
Qed.

(** C1, as amended.  [NewConfig] never panics.  Its deferred function runs
    the trim pass on the record the sources gave, then the required-field
    check on the trimmed record, and only then merges the defaults: the
    error returned is the check's on the trimmed record before the defaults
    are merged, and the record returned is the trimmed record merged with
    [DefaultConfig]. *)
Theorem NewConfig_checks_before_defaults
        (structTag : nat -> StructTag) (json : Json) (w : World) :
  exists ctmp acc trimmed cfg e0 e1 e,
    (forall t, EnvironmentConfig json w t = Done ctmp (t ++ e0))
    /\ (forall t, NewConfig_body json w ctmp t = Done acc (t ++ e1))
    /\ fields trimmed = Spec.trim structTag (fields acc)
    /\ fields cfg = Spec.merge (fields trimmed) (fields DefaultConfig)
    /\ forall t, NewConfig structTag json w t
                 = Done (cfg, Spec.missing_error structTag (fields trimmed)) (t ++ e).
Proof.
  destruct (NewConfig_run structTag json w)
    as [ctmp [acc [e1 [c1 [cfg [e2 [E0 [E1 [F1 [F2 [_ E]]]]]]]]]]].
  exists ctmp, acc, c1, cfg, (env_events json w), e1, (env_events json w ++ e1 ++ e2).
  auto.
Qed.

(** C1 as stated fails.  With the data directory tagged [missing:"fatal"], an
    empty environment, no configuration file and a metadata service that
    gives the region, [NewConfig] returns the error "Missing required fields:
    DataDir" although [DefaultConfig] gives [DataDir] a value, which the
    returned record holds: the same check on the returned record finds
    nothing missing. *)
Lemma NewConfig_error_names_defaulted_field :
  exists cfg e,
    NewConfig tags_datadir_fatal sample_json (world_of_env no_env) []
    = Done (cfg, Some (errorString "Missing required fields: DataDir")) e
    /\ DataDir DefaultConfig = "/data/"
    /\ DataDir cfg = "/data/"
    /\ Spec.missing_error tags_datadir_fatal (fields cfg) = None.
Proof.
  do 2 eexists. split; [vm_compute; reflexivity|].
  repeat split.
Qed.

(** * Further facts and worked scenarios *)

(** The record [EnvironmentConfig] returns is never complete: it leaves
    [ClusterArn] empty, so [NewConfig] always goes on to the file. *)
Lemma EnvironmentConfig_incomplete (json : Json) (w : World) (t : trace) :
  exists c,
    EnvironmentConfig json w t = Done c (t ++ env_events json w)
    /\ Spec.complete (fields c) = false.
Proof.
  destruct (EnvironmentConfig_run json w t) as [c [E [H _]]].
  exists c. split; [exact E|].
  destruct c; simpl in H; subst. reflexivity.
Qed.

(** Where no fatal-required field has a default, checking before the
    defaults are merged and checking after give the same fatal-list. *)
Lemma fatal_list_merge_defaults (structTag : nat -> StructTag) (c : Config) :
  (forall i d, nth_error (fields DefaultConfig) i = Some d ->
               Spec.fatal_required structTag i = true -> ZeroOrNil d = true) ->
  Spec.fatal_list structTag (Spec.merge (fields c) (fields DefaultConfig))
  = Spec.fatal_list structTag (fields c).
Proof.
  intros H. unfold Spec.fatal_list.
  assert (L : List.length (Spec.merge (fields c) (fields DefaultConfig))
              = List.length (fields c)) by (destruct c; reflexivity).
  rewrite L. f_equal. apply filter_ext. intros i.
  unfold Spec.missing_fatal. rewrite nth_error_merge.
  destruct (nth_error (fields c) i) as [a|] eqn:Ea; auto.
  destruct (nth_error (fields DefaultConfig) i) as [d|] eqn:Ed.
  - unfold Spec.merge_field.
    destruct (ZeroOrNil a) eqn:Za; [|rewrite Za; reflexivity].
    destruct (Spec.fatal_required structTag i) eqn:F.
    + rewrite (H i d Ed F). reflexivity.
    + rewrite !andb_false_r. reflexivity.
  - exfalso. apply nth_error_None in Ed.
    assert (i < List.length (fields c)) by (apply nth_error_Some; congruence).
    rewrite fields_length in *. lia.
Qed.

Example TrimSpace_ascii : TrimSpace "  us-west-2 " = "us-west-2".
Proof. reflexivity. Qed.

Example TrimSpace_blank : TrimSpace (String (ascii_of_nat 9) " ") = "".
Proof. reflexivity. Qed.

(** A no-break space (C2 A0) is white space, a lone A0 is not. *)
Example TrimSpace_nbsp :
  TrimSpace (String (ascii_of_nat 194) (String (ascii_of_nat 160) "a")) = "a"
  /\ TrimSpace (String (ascii_of_nat 160) "a") = String (ascii_of_nat 160) "a".
Proof. split; reflexivity. Qed.

Example ParseUint16_max : strconv_ParseUint16 "65535" = (65535%Z, None).
Proof. reflexivity. Qed.

Example ParseUint16_over : strconv_ParseUint16 "65536" = (65535%Z, Some strconv_ErrRange).
Proof. reflexivity. Qed.

Example ParseUint16_sign : strconv_ParseUint16 "+5" = (0%Z, Some strconv_ErrSyntax).
Proof. reflexivity. Qed.

Example ParseBool_default : ParseBool "" true = true /\ ParseBool " false " true = false.
Proof. split; reflexivity. Qed.

(** Scenario 2: the environment gives the reserved ports and no region, the
    file gives the region: the environment's ports win, the file's region is
    used, and the metadata service is not called. *)
Example scenario_ports_and_region :
  let w := mkWorld (env_of "ECS_RESERVED_PORTS" "[22,2375]")
                   (fun _ => Contents doc_region)
                   (inl (otherError "connection refused")) in
  exists cfg e,
    NewConfig tags_region_fatal sample_json w [] = Done (cfg, None) e
    /\ AWSRegion cfg = "us-west-2"
    /\ ReservedPorts cfg = Some [22%Z; 2375%Z]
    /\ metadata_calls e = 0
    /\ file_calls e = 1.
Proof.
  do 2 eexists. split; [vm_compute; reflexivity|]. repeat split.
Qed.

(** Scenario 3: no region anywhere and the metadata call fails: the error
    names the region. *)
Example scenario_no_region :
  let w := mkWorld no_env
                   (fun _ => OpenFails (otherError "open: no such file or directory"))
                   (inl (otherError "connection refused")) in
  exists cfg e,
    NewConfig tags_region_fatal sample_json w []
    = Done (cfg, Some (errorString "Missing required fields: AWSRegion")) e
    /\ AWSRegion cfg = ""
    /\ metadata_calls e = 1.
Proof.
  do 2 eexists. split; [vm_compute; reflexivity|]. repeat split.
Qed.

(** Scenario 6: a trimmed field loses its surrounding spaces, a field with
    no [trim] tag keeps them. *)
Example scenario_trim :
  let w := world_of_env (fun n => if String.eqb n "ECS_CLUSTER" then " prod "
                                  else if String.eqb n "ECS_DATADIR" then " /d "
                                  else "") in
  exists cfg err e,
    NewConfig tags_region_fatal sample_json w [] = Done (cfg, err) e
    /\ Cluster cfg = "prod"
    /\ DataDir cfg = " /d ".
Proof.
  do 3 eexists. split; [vm_compute; reflexivity|]. repeat split.
Qed.

(** * More about Merge and Complete *)

Lemma merge_field_idem (a b : value) :
  Spec.merge_field (Spec.merge_field a b) b = Spec.merge_field a b.
Proof.
  unfold Spec.merge_field.
  destruct (ZeroOrNil a) eqn:Za; [|rewrite Za; reflexivity].
  destruct (ZeroOrNil b); reflexivity.
Qed.

Lemma merge_field_assoc (a b c : value) :
  Spec.merge_field (Spec.merge_field a b) c
  = Spec.merge_field a (Spec.merge_field b c).
Proof.
  unfold Spec.merge_field.
  destruct (ZeroOrNil a) eqn:Za; [reflexivity|]. rewrite Za. reflexivity.
Qed.

Lemma merge_idem (A B : list value) :
  Spec.merge (Spec.merge A B) B = Spec.merge A B.
Proof.
  revert B; induction A as [|a A' IH]; intros [|b B']; simpl; auto.
  rewrite merge_field_idem, IH. reflexivity.
Qed.

Lemma merge_assoc (A B C : list value) :
  Spec.merge (Spec.merge A B) C = Spec.merge A (Spec.merge B C).
Proof.
  revert B C; induction A as [|a A' IH]; intros [|b B'] [|c C']; simpl; auto.
  rewrite merge_field_assoc, IH. reflexivity.
Qed.

(** X1.  Merging the same record a second time changes nothing:
    [Merge(Merge(A, B), B)] is [Merge(A, B)]. *)
Theorem Merge_idempotent (A B : Config) (t : trace) :
  exists m, Merge A B t = Done m t /\ Merge m B t = Done m t.
Proof.
  destruct (Merge_total A B) as [m [F E]].
  destruct (Merge_total m B) as [m' [F' E']].
  exists m. split; [apply E|]. rewrite E'. f_equal.
  apply fields_inj. rewrite F', F. apply merge_idem.
Qed.

(** X2.  Chained merges associate: merging [C] into [Merge(A, B)] gives the
    record that merging [Merge(B, C)] into [A] gives, so in a chain a source
    is overridden by exactly the sources before it. *)
Theorem Merge_associative (A B C : Config) (t : trace) :
  exists ab bc r,
    Merge A B t = Done ab t
    /\ Merge B C t = Done bc t
    /\ Merge ab C t = Done r t
    /\ Merge A bc t = Done r t.
Proof.
  destruct (Merge_total A B) as [ab [Fab Eab]].
  destruct (Merge_total B C) as [bc [Fbc Ebc]].
  destruct (Merge_total ab C) as [r [Fr Er]].
  destruct (Merge_total A bc) as [r' [Fr' Er']].
  exists ab, bc, r. repeat split; auto.
  rewrite Er'. f_equal. apply fields_inj.
  rewrite Fr, Fr', Fab, Fbc. symmetry. apply merge_assoc.
Qed.

Lemma complete_merge_iff (A B : list value) :
  List.length A = List.length B ->
  (Spec.complete (Spec.merge A B) = true
   <-> forall i a b, nth_error A i = Some a -> nth_error B i = Some b ->
                     ZeroOrNil a = false \/ ZeroOrNil b = false).
Proof.
  revert B; induction A as [|a A' IH]; intros [|b B'] HL; simpl in *;
    try discriminate.
  - split; auto. intros _ [|i] ? ?; discriminate.
  - injection HL as HL. specialize (IH B' HL).
    rewrite andb_true_iff, IH. unfold Spec.merge_field. split.
    + intros [H0 H] [|i] x y Hx Hy; simpl in *.
      * injection Hx as <-. injection Hy as <-.
        destruct (ZeroOrNil a); auto.
        right. destruct (ZeroOrNil b); auto.
      * eapply H; eauto.
    + intros H. split.
      * destruct (H 0 a b eq_refl eq_refl) as [Ha|Hb].
        -- rewrite Ha, Ha. reflexivity.
        -- destruct (ZeroOrNil a) eqn:Za; [rewrite Hb|rewrite Za]; reflexivity.
      * intros i x y Hx Hy. exact (H (S i) x y Hx Hy).
Qed.

(** X3.  [Complete] holds of [Merge(A, B)] exactly when every field is set in
    [A] or in [B]; in particular a complete [B] completes any [A]. *)
Theorem Complete_of_Merge (A B : Config) (t : trace) :
  exists m c,
    Merge A B t = Done m t
    /\ Complete m t = Done c t
    /\ (c = true
        <-> forall i a b, nth_error (fields A) i = Some a ->
                          nth_error (fields B) i = Some b ->
                          ZeroOrNil a = false \/ ZeroOrNil b = false).
Proof.
  destruct (Merge_total A B) as [m [F E]].
  exists m, (Spec.complete (fields m)).
  split; [apply E|]. split; [apply Complete_run|].
  rewrite F. apply complete_merge_iff. reflexivity.
Qed.

Lemma merge_string_empty (s : string) :
  Spec.merge_field (VString s) (VString "") = VString s.
Proof.
  unfold Spec.merge_field. simpl.
  destruct (String.eqb s "") eqn:E; auto. apply String.eqb_eq in E. subst. auto.
Qed.

Lemma merge_bool_false (b : bool) :
  Spec.merge_field (VBool b) (VBool false) = VBool b.
Proof. destruct b; reflexivity. Qed.

Lemma merge_ports_nil (l : slice Z) :
  Spec.merge_field (VUint16s l) (VUint16s None)
  = VUint16s (if Nat.eqb (len l) 0 then None else l).
Proof. unfold Spec.merge_field. simpl. destruct (Nat.eqb (len l) 0); reflexivity. Qed.

Lemma merge_bytes_nil (l : slice ascii) :
  Spec.merge_field (VBytes l) (VBytes None)
  = VBytes (if Nat.eqb (len l) 0 then None else l).
Proof. unfold Spec.merge_field. simpl. destruct (Nat.eqb (len l) 0); reflexivity. Qed.

Lemma merge_uint16_zero (n : Z) :
  Spec.merge_field (VUint16 n) (VUint16 0) = VUint16 n.
Proof.
  unfold Spec.merge_field. simpl.
  destruct (n =? 0)%Z eqn:E; auto. apply Z.eqb_eq in E. subst. auto.
Qed.

Lemma slice_or_nil {A : Type} (l : slice A) :
  (if Nat.eqb (len l) 0 then None else l) = l <-> l <> Some [].
Proof.
  destruct l as [[|x r]|]; simpl; split; intros H; try congruence; discriminate.
Qed.

Lemma merge_empty_emptiness (A E : list value) :
  List.length A = List.length E -> forallb ZeroOrNil E = true ->
  map ZeroOrNil (Spec.merge A E) = map ZeroOrNil A.
Proof.
  revert E; induction A as [|a A' IH]; intros [|b E'] HL HE; simpl in *;
    try discriminate; auto.
  apply andb_prop in HE. destruct HE as [Hb HE].
  rewrite IH by (auto; lia). f_equal.
  unfold Spec.merge_field. destruct (ZeroOrNil a) eqn:Za; auto.
Qed.

(** X4.  Merging the empty record [Config{}] into [A] keeps every field of
    [A] that is set and leaves the others empty; the result is [A] itself
    exactly when no slice field of [A] is empty without being nil (such a
    slice becomes nil). *)
Theorem Merge_empty_record (A : Config) (t : trace) :
  exists m,
    Merge A emptyConfig t = Done m t
    /\ map ZeroOrNil (fields m) = map ZeroOrNil (fields A)
    /\ (forall i a, nth_error (fields A) i = Some a -> ZeroOrNil a = false ->
                    nth_error (fields m) i = Some a)
    /\ (m = A <-> ReservedPorts A <> Some []
                  /\ ReservedPortsUDP A <> Some []
                  /\ EngineAuthData A <> Some []).
Proof.
  destruct (Merge_total A emptyConfig) as [m [F E]].
  exists m. split; [apply E|].
  assert (P : forall i, nth_error (fields m) i =
                        match nth_error (fields A) i, nth_error (fields emptyConfig) i with
                        | Some a, Some b => Some (Spec.merge_field a b)
                        | _, _ => None
                        end) by (intros i; rewrite F; apply nth_error_merge).
  split; [|split].
  - rewrite F. apply merge_empty_emptiness; reflexivity.
  - intros i a Ha Za. rewrite P, Ha.
    destruct (nth_error (fields emptyConfig) i) eqn:Eb.
    + unfold Spec.merge_field. rewrite Za. reflexivity.
    + exfalso. apply nth_error_None in Eb.
      assert (i < List.length (fields A)) by (apply nth_error_Some; congruence).
      rewrite fields_length in *. lia.
  - assert (N : m = mkConfig (ClusterArn A) (Cluster A) (APIEndpoint A)
                             (DockerEndpoint A) (AWSRegion A)
                             (if Nat.eqb (len (ReservedPorts A)) 0 then None
                              else ReservedPorts A)
                             (if Nat.eqb (len (ReservedPortsUDP A)) 0 then None
                              else ReservedPortsUDP A)
                             (DataDir A) (Checkpoint A) (EngineAuthType A)
                             (if Nat.eqb (len (EngineAuthData A)) 0 then None
                              else EngineAuthData A)
                             (UpdatesEnabled A) (UpdateDownloadDir A)
                             (DisableMetrics A) (DockerGraphPath A)
                             (ReservedMemory A) (EngineLogDriver A)
                             (EngineLogOpts A)).
    { apply fields_inj. rewrite F. destruct A. cbn.
      rewrite !merge_string_empty, !merge_bool_false, !merge_uint16_zero,
        !merge_ports_nil, !merge_bytes_nil.
      reflexivity. }
    rewrite N. clear. destruct A; cbn [ReservedPorts ReservedPortsUDP EngineAuthData
                                      ClusterArn Cluster APIEndpoint DockerEndpoint
                                      AWSRegion DataDir Checkpoint EngineAuthType
                                      UpdatesEnabled UpdateDownloadDir DisableMetrics
                                      DockerGraphPath ReservedMemory EngineLogDriver
                                      EngineLogOpts].
    split.
    + intros H. injection H as H1 H2 H3.
      apply slice_or_nil in H1. apply slice_or_nil in H2. apply slice_or_nil in H3.
      auto.
    + intros [H1 [H2 H3]].
      apply slice_or_nil in H1. apply slice_or_nil in H2. apply slice_or_nil in H3.
      f_equal; assumption.
Qed.

(** * More about NewConfig *)

Lemma Done_inj {A : Type} (a a' : A) (t t' : trace) :
  Done a t = Done a' t' -> a = a' /\ t = t'.
Proof. intros H. injection H; auto. Qed.

Lemma merge_kept (A B : Config) (m : Config) (i : nat) (a : value) :
  fields m = Spec.merge (fields A) (fields B) ->
  nth_error (fields A) i = Some a -> ZeroOrNil a = false ->
  nth_error (fields m) i = Some a.
Proof.
  intros F Ha Za. rewrite F, nth_error_merge, Ha.
  destruct (field_in_range B i) as [b Hb].
  - rewrite <- (fields_length A). apply nth_error_Some. congruence.
  - rewrite Hb. unfold Spec.merge_field. rewrite Za. reflexivity.
Qed.

Lemma merge_AWSRegion (A B m : Config) :
  fields m = Spec.merge (fields A) (fields B) ->
  AWSRegion m = if String.eqb (AWSRegion A) "" then AWSRegion B else AWSRegion A.
Proof.
  intros F.
  assert (H : nth_error (fields m) 4 = nth_error (Spec.merge (fields A) (fields B)) 4)
    by (rewrite F; reflexivity).
  rewrite nth_error_merge in H. cbn in H. unfold Spec.merge_field in H. cbn in H.
  destruct (String.eqb (AWSRegion A) ""); congruence.
Qed.

Lemma trim_AWSRegion (structTag : nat -> StructTag) (A c : Config) :
  fields c = Spec.trim structTag (fields A) ->
  AWSRegion c = if Spec.trim_annotated structTag 4 then TrimSpace (AWSRegion A)
                else AWSRegion A.
Proof.
  intros F.
  assert (H : nth_error (fields c) 4 = nth_error (Spec.trim structTag (fields A)) 4)
    by (rewrite F; reflexivity).
  unfold Spec.trim in H. rewrite nth_error_imap in H. cbn in H.
  destruct (Spec.trim_annotated structTag 4); congruence.
Qed.

Lemma NewConfig_unfolded (structTag : nat -> StructTag) (json : Json) (w : World) :
  exists ctmp file ef merged acc e1 c1 cfg e2,
    (forall t, EnvironmentConfig json w t = Done ctmp (t ++ env_events json w))
    /\ AWSRegion ctmp = Getenv w "AWS_DEFAULT_REGION"
    /\ (forall t, FileConfig json w t = Done file (t ++ ef))
    /\ file_calls ef = 1 /\ metadata_calls ef = 0
    /\ fields merged = Spec.merge (fields ctmp) (fields file)
    /\ (if String.eqb (AWSRegion merged) ""
        then exists md em,
            (forall t, EC2MetadataConfig w t = Done md (t ++ em))
            /\ file_calls em = 0 /\ metadata_calls em = 1
            /\ fields acc = Spec.merge (fields merged) (fields md)
            /\ e1 = ef ++ em
        else acc = merged /\ e1 = ef)
    /\ fields c1 = Spec.trim structTag (fields acc)
    /\ fields cfg = Spec.merge (fields c1) (fields DefaultConfig)
    /\ quiet e2 = true
    /\ forall t, NewConfig structTag json w t
                 = Done (cfg, Spec.missing_error structTag (fields c1))
                        (t ++ env_events json w ++ e1 ++ e2).
Proof.
  destruct (EnvironmentConfig_run json w []) as [ctmp [E0 [HA [HR _]]]].
  assert (E0' : forall t, EnvironmentConfig json w t = Done ctmp (t ++ env_events json w)).
  { apply uniform_run with (t0 := []); auto with uniform. }
  assert (C : Spec.complete (fields ctmp) = false).
  { destruct ctmp; simpl in HA; subst; reflexivity. }
  destruct (NewConfig_body_run json w ctmp) as [acc [e1 [E1 H]]].
  rewrite C in H. destruct H as [file [ef [merged [EF [F1 [F2 [FM H]]]]]]].
  destruct (NewConfig_deferred_run structTag acc) as [c1 [cfg [e2 [G1 [G2 [Q E2]]]]]].
  exists ctmp, file, ef, merged, acc, e1, c1, cfg, e2.
  repeat (split; [assumption|]).
  intros t. unfold NewConfig.
  rewrite (bind_Done _ _ _ _ _ (E0' t)).
  rewrite (bind_Done _ _ _ _ _ (E1 _)).
  rewrite E2, <- !app_assoc. reflexivity.
Qed.

(** X5.  [NewConfig] always opens the configuration file, exactly once:
    [EnvironmentConfig] never sets [ClusterArn], so its record is never
    complete and the branch that skips the file is never taken. *)
Theorem NewConfig_always_reads_file
        (structTag : nat -> StructTag) (json : Json) (w : World) :
  exists cfg err e,
    (forall t, NewConfig structTag json w t = Done (cfg, err) (t ++ e))
    /\ file_calls e = 1.
Proof.
  destruct (NewConfig_unfolded structTag json w)
    as [ctmp [file [ef [merged [acc [e1 [c1 [cfg [e2 H]]]]]]]]].
  destruct H as [_ [_ [_ [F1 [_ [_ [HM [_ [_ [Q E]]]]]]]]]].
  exists cfg, (Spec.missing_error structTag (fields c1)), (env_events json w ++ e1 ++ e2).
  split; [exact E|].
  rewrite !file_calls_app.
  destruct (quiet_no_calls _ (quiet_env_events json w)) as [-> _].
  destruct (quiet_no_calls _ Q) as [-> _].
  destruct (String.eqb (AWSRegion merged) "").
  - destruct HM as [md [em [_ [M1 [_ [_ ->]]]]]].
    rewrite file_calls_app, F1, M1. reflexivity.
  - destruct HM as [_ ->]. rewrite F1. reflexivity.
Qed.

(** X6.  The region [NewConfig] returns is the first non-empty one of
    AWS_DEFAULT_REGION, the file's [AWSRegion] and the region of the instance
    identity document (none if that call fails), trimmed when the field has
    the [trim] tag; the metadata service is called exactly when environment
    and file both leave the region empty.  The defaults never supply it. *)
Theorem NewConfig_region_precedence
        (structTag : nat -> StructTag) (json : Json) (w : World) :
  exists file ef cfg err e,
    (forall t, FileConfig json w t = Done file (t ++ ef))
    /\ (forall t, NewConfig structTag json w t = Done (cfg, err) (t ++ e))
    /\ let env_region := Getenv w "AWS_DEFAULT_REGION" in
       let region :=
         if negb (String.eqb env_region "") then env_region
         else if negb (String.eqb (AWSRegion file) "") then AWSRegion file
              else match identity_document w with
                   | inl _ => ""
                   | inr r => r
                   end in
       AWSRegion cfg = (if Spec.trim_annotated structTag 4 then TrimSpace region
                        else region)
       /\ metadata_calls e
          = (if String.eqb env_region "" && String.eqb (AWSRegion file) "" then 1 else 0).
Proof.
  destruct (NewConfig_unfolded structTag json w)
    as [ctmp [file [ef [merged [acc [e1 [c1 [cfg [e2 H]]]]]]]]].
  destruct H as [_ [HR [EF [_ [F2 [FM [HM [G1 [G2 [Q E]]]]]]]]]].
  exists file, ef, cfg, (Spec.missing_error structTag (fields c1)),
    (env_events json w ++ e1 ++ e2).
  split; [exact EF|]. split; [exact E|].
  cbv zeta.
  pose proof (merge_AWSRegion _ _ _ FM) as RM. rewrite HR in RM.
  pose proof (trim_AWSRegion _ _ _ G1) as RT.
  pose proof (merge_AWSRegion _ _ _ G2) as RD.
  change (AWSRegion DefaultConfig) with "" in RD.
  assert (RC : AWSRegion cfg = AWSRegion c1).
  { rewrite RD. destruct (String.eqb (AWSRegion c1) "") eqn:Z; auto.
    apply String.eqb_eq in Z. auto. }
  rewrite RC, RT. clear RC RT RD.
  rewrite !metadata_calls_app.
  destruct (quiet_no_calls _ (quiet_env_events json w)) as [_ ->].
  destruct (quiet_no_calls _ Q) as [_ ->].
  destruct (String.eqb (Getenv w "AWS_DEFAULT_REGION") "") eqn:ZE; cbn [negb andb].
  - destruct (String.eqb (AWSRegion file) "") eqn:ZF; cbn [negb].
    + rewrite RM in HM. rewrite ZF in HM.
      destruct HM as [md [em [EMD [_ [M2 [FA ->]]]]]].
      destruct (EC2MetadataConfig_run w) as [md' [em' [EMD' [_ [_ MD]]]]].
      pose proof (EMD []) as X. rewrite (EMD' []) in X.
      apply Done_inj in X. destruct X as [X _]. rewrite MD in X.
      pose proof (merge_AWSRegion _ _ _ FA) as RA.
      rewrite RM, ZF in RA. rewrite RA, <- X.
      rewrite metadata_calls_app, F2, M2.
      split; [|reflexivity].
      destruct (identity_document w); reflexivity.
    + rewrite RM in HM. rewrite ZF in HM. destruct HM as [-> ->].
      rewrite RM, F2. auto.
  - rewrite RM in HM. rewrite ZE in HM. destruct HM as [-> ->].
    rewrite RM, F2. auto.
Qed.

Lemma trim_at (structTag : nat -> StructTag) (A c : Config) (i : nat) (a : value) :
  fields c = Spec.trim structTag (fields A) ->
  nth_error (fields A) i = Some a ->
  nth_error (fields c) i = Some (Spec.trim_field structTag i a).
Proof.
  intros F Ha. rewrite F. unfold Spec.trim. rewrite nth_error_imap, Ha. reflexivity.
Qed.

(** X7.  "Environment overrides all else": a field the environment sets is
    returned by [NewConfig] with the environment's value, whatever the file,
    the metadata service and the defaults hold; with the [trim] tag it is the
    trimmed value, provided trimming does not empty it. *)
Theorem NewConfig_environment_wins
        (structTag : nat -> StructTag) (json : Json) (w : World)
        (ctmp : Config) (e0 : trace) (i : nat) (a : value) :
  EnvironmentConfig json w [] = Done ctmp e0 ->
  nth_error (fields ctmp) i = Some a ->
  ZeroOrNil a = false ->
  ZeroOrNil (Spec.trim_field structTag i a) = false ->
  exists cfg err e,
    NewConfig structTag json w [] = Done (cfg, err) e
    /\ nth_error (fields cfg) i = Some (Spec.trim_field structTag i a).
Proof.
  intros HE Ha Za Zt.
  destruct (NewConfig_unfolded structTag json w)
    as [ctmp' [file [ef [merged [acc [e1 [c1 [cfg [e2 H]]]]]]]]].
  destruct H as [E0 [_ [_ [_ [_ [FM [HM [G1 [G2 [_ E]]]]]]]]]].
  pose proof (E0 []) as X. rewrite HE in X.
  apply Done_inj in X. destruct X as [<- _].
  exists cfg, (Spec.missing_error structTag (fields c1)),
    ([] ++ env_events json w ++ e1 ++ e2).
  split; [apply E|].
  assert (Hm : nth_error (fields merged) i = Some a)
    by (eapply merge_kept; eauto).
  assert (Hacc : nth_error (fields acc) i = Some a).
  { destruct (String.eqb (AWSRegion merged) "").
    - destruct HM as [md [em [_ [_ [_ [FA _]]]]]]. eapply merge_kept; eauto.
    - destruct HM as [-> _]. exact Hm. }
  eapply merge_kept; eauto. eapply trim_at; eauto.
Qed.

Lemma NewConfig_environment_wins_witness :
  let w := world_of_env (env_of "ECS_CLUSTER" " prod ") in
  exists cfg err e,
    NewConfig tags_region_fatal sample_json w [] = Done (cfg, err) e
    /\ nth_error (fields cfg) 1 = Some (VString "prod").
Proof.
  intros w.
  refine (NewConfig_environment_wins tags_region_fatal sample_json w
            _ _ 1 (VString " prod ") eq_refl eq_refl eq_refl eq_refl).
Defined.

Lemma merge_defaults_filled (c cfg : Config) :
  fields cfg = Spec.merge (fields c) (fields DefaultConfig) ->
  DockerEndpoint cfg <> "" /\ DataDir cfg <> "" /\ DockerGraphPath cfg <> ""
  /\ len (ReservedPorts cfg) <> 0.
Proof.
  intros F.
  assert (H : forall i, nth_error (fields cfg) i
                        = nth_error (Spec.merge (fields c) (fields DefaultConfig)) i)
    by (intros i; rewrite F; reflexivity).
  pose proof (H 3) as H3. pose proof (H 5) as H5.
  pose proof (H 7) as H7. pose proof (H 14) as H14. clear H F.
  rewrite nth_error_merge in *. cbn in H3, H5, H7, H14.
  unfold Spec.merge_field in *. cbn in H3, H5, H7, H14.
  repeat split.
  - destruct (String.eqb (DockerEndpoint c) "") eqn:Z; injection H3 as ->;
      [discriminate | intros N; rewrite N in Z; discriminate].
  - destruct (String.eqb (DataDir c) "") eqn:Z; injection H7 as ->;
      [discriminate | intros N; rewrite N in Z; discriminate].
  - destruct (String.eqb (DockerGraphPath c) "") eqn:Z; injection H14 as ->;
      [discriminate | intros N; rewrite N in Z; discriminate].
  - destruct (Nat.eqb (len (ReservedPorts c)) 0) eqn:Z; injection H5 as ->;
      [discriminate | apply Nat.eqb_neq; exact Z].
Qed.

(** X8.  Whatever the environment, the file and the metadata service give,
    the record [NewConfig] returns has a Docker endpoint, a data directory, a
    Docker graph path and at least one reserved port: the defaults are merged
    last and fill them. *)
Theorem NewConfig_defaults_fill
        (structTag : nat -> StructTag) (json : Json) (w : World) :
  exists cfg err e,
    (forall t, NewConfig structTag json w t = Done (cfg, err) (t ++ e))
    /\ DockerEndpoint cfg <> ""
    /\ DataDir cfg <> ""
    /\ DockerGraphPath cfg <> ""
    /\ len (ReservedPorts cfg) <> 0.
Proof.
  destruct (NewConfig_unfolded structTag json w)
    as [ctmp [file [ef [merged [acc [e1 [c1 [cfg [e2 H]]]]]]]]].
  destruct H as [_ [_ [_ [_ [_ [_ [_ [_ [G2 [_ E]]]]]]]]]].
  exists cfg, (Spec.missing_error structTag (fields c1)),
    (env_events json w ++ e1 ++ e2).
  split; [exact E|]. apply (merge_defaults_filled c1). exact G2.
Qed.

(** X9.  A region in the environment that is not empty but only white space,
    on a field tagged both [trim] and [missing:"fatal"], is taken as set when
    the sources are merged, so the metadata service is not asked; trimming
    then empties it and [NewConfig] returns an error, with an empty region. *)
Theorem NewConfig_blank_region
        (structTag : nat -> StructTag) (json : Json) (w : World) :
  Spec.trim_annotated structTag 4 = true ->
  Spec.fatal_required structTag 4 = true ->
  Getenv w "AWS_DEFAULT_REGION" <> "" ->
  TrimSpace (Getenv w "AWS_DEFAULT_REGION") = "" ->
  exists cfg msg e,
    (forall t, NewConfig structTag json w t
               = Done (cfg, Some (errorString msg)) (t ++ e))
    /\ metadata_calls e = 0
    /\ AWSRegion cfg = "".
Proof.
  intros HT HF HN HB.
  destruct (NewConfig_unfolded structTag json w)
    as [ctmp [file [ef [merged [acc [e1 [c1 [cfg [e2 H]]]]]]]]].
  destruct H as [_ [HR [_ [_ [F2 [FM [HM [G1 [G2 [Q E]]]]]]]]]].
  apply String.eqb_neq in HN.
  pose proof (merge_AWSRegion _ _ _ FM) as RM. rewrite HR, HN in RM.
  rewrite RM, HN in HM. destruct HM as [-> ->].
  pose proof (trim_AWSRegion _ _ _ G1) as RT. rewrite HT, RM, HB in RT.
  pose proof (merge_AWSRegion _ _ _ G2) as RD. rewrite RT in RD. cbn in RD.
  assert (M : Spec.missing_fatal structTag (fields c1) 4 = true).
  { unfold Spec.missing_fatal.
    replace (nth_error (fields c1) 4) with (Some (VString (AWSRegion c1)))
      by reflexivity.
    rewrite RT, HF. reflexivity. }
  assert (N : exists msg, Spec.missing_error structTag (fields c1)
                          = Some (errorString msg)).
  { unfold Spec.missing_error, Spec.fatal_list.
    destruct (filter (Spec.missing_fatal structTag (fields c1))
                     (seq 0 (List.length (fields c1)))) as [|j l] eqn:Fl.
    - exfalso.
      assert (I : In 4 (filter (Spec.missing_fatal structTag (fields c1))
                               (seq 0 (List.length (fields c1))))).
      { apply filter_In. split; [|exact M]. apply in_seq.
        rewrite fields_length. unfold NumField. lia. }
      rewrite Fl in I. destruct I.
    - simpl. eauto. }
  destruct N as [msg N]. rewrite N in E.
  exists cfg, msg, (env_events json w ++ ef ++ e2).
  split; [exact E|]. split; [|exact RD].
  rewrite !metadata_calls_app, F2.
  destruct (quiet_no_calls _ (quiet_env_events json w)) as [_ ->].
  destruct (quiet_no_calls _ Q) as [_ ->]. reflexivity.
Qed.

Lemma NewConfig_blank_region_witness :
  let w := world_of_env (env_of "AWS_DEFAULT_REGION" " ") in
  exists cfg msg e,
    (forall t, NewConfig tags_region_fatal sample_json w t
               = Done (cfg, Some (errorString msg)) (t ++ e))
    /\ metadata_calls e = 0
    /\ AWSRegion cfg = "".
Proof.
  intros w.
  apply (NewConfig_blank_region tags_region_fatal sample_json w);
    [reflexivity | reflexivity | discriminate | reflexivity].
Defined.

(** * What CheckMissingAndDepreciated logs *)

Lemma logged_flat_map {A : Type} (lvl : level) (msg : string)
      (f : A -> list event) (l : list A) :
  logged lvl msg (flat_map f l) = existsb (fun a => logged lvl msg (f a)) l.
Proof.
  induction l as [|a l IH]; simpl; auto.
  rewrite logged_app, IH. reflexivity.
Qed.

Lemma existsb_pointwise {A : Type} (f g : A -> bool) (l : list A) :
  (forall a, f a = g a) -> existsb f l = existsb g l.
Proof. intros H. induction l as [|a l IH]; simpl; congruence. Qed.

Lemma CheckMissing_body_events (structTag : nat -> StructTag) (cfg : Config)
      (i : nat) (acc : list string) (a : value) (t : trace) :
  nth_error (fields cfg) i = Some a ->
  CheckMissing_body structTag cfg i acc t
  = Done (acc ++ (if Spec.missing_fatal structTag (fields cfg) i then [Name i] else []))
         (t ++ check_events structTag cfg i).
Proof.
  intros Ha.
  unfold CheckMissing_body, check_events, Spec.missing_fatal, Spec.fatal_required,
    missing_warn, missing_unexpected, deprecated_used.
  rewrite (bind_Done _ _ _ _ _ (Field_run _ _ _ _ Ha)), Ha.
  rewrite !length_eqb_0.
  destruct (ZeroOrNil a); cbn [andb negb].
  - destruct (String.eqb (Tag_Get (structTag i) "missing") "") eqn:E0.
    + apply String.eqb_eq in E0. rewrite E0. cbn. unfold ret.
      rewrite !app_nil_r. reflexivity.
    + destruct (String.eqb (Tag_Get (structTag i) "missing") "warn") eqn:E1.
      * apply String.eqb_eq in E1. rewrite E1. cbn.
        unfold bind, log_Warn, emit, ret. rewrite app_nil_r. reflexivity.
      * destruct (String.eqb (Tag_Get (structTag i) "missing") "fatal") eqn:E2; cbn.
        -- unfold bind, log_Crit, emit, ret. reflexivity.
        -- unfold bind, log_Warn, emit, ret. rewrite app_nil_r. reflexivity.
  - destruct (String.eqb (Tag_Get (structTag i) "deprecated") ""); cbn.
    + unfold ret. rewrite !app_nil_r. reflexivity.
    + unfold bind, log_Warn, emit, ret. rewrite app_nil_r. reflexivity.
Qed.

Lemma CheckMissing_loop_events (structTag : nat -> StructTag) (cfg : Config)
      (idx : list nat) :
  Forall (fun i => i < NumField) idx ->
  forall acc t,
    for_fields (CheckMissing_body structTag cfg) idx acc t
    = Done (acc ++ map Name (filter (Spec.missing_fatal structTag (fields cfg)) idx))
           (t ++ flat_map (check_events structTag cfg) idx).
Proof.
  induction idx as [|i idx IH]; intros H acc t.
  - simpl. unfold ret. rewrite !app_nil_r. reflexivity.
  - inversion H as [|? ? Hi H']; subst.
    destruct (field_in_range cfg i Hi) as [a Ha].
    simpl. rewrite (bind_Done _ _ _ _ _ (CheckMissing_body_events _ _ _ _ _ _ Ha)).
    rewrite IH by assumption. rewrite <- !app_assoc.
    destruct (Spec.missing_fatal structTag (fields cfg) i); reflexivity.
Qed.

Ltac tag_cases :=
  repeat match goal with
         | H : String.eqb _ _ = true |- _ => apply String.eqb_eq in H; rewrite H in *
         | |- context [String.eqb ?x ?y] =>
           lazymatch x with
           | Tag_Get _ _ => let E := fresh "E" in destruct (String.eqb x y) eqn:E
           end
         end;
  try reflexivity; try discriminate.

Lemma check_events_logged (structTag : nat -> StructTag) (cfg : Config) (i : nat) :
  let e := check_events structTag cfg i in
  let L := fields cfg in
  logged Crit "Configuration key not set" e = Spec.missing_fatal structTag L i
  /\ logged Warn "Configuration key not set" e = missing_warn structTag L i
  /\ logged Warn "Unexpected `missing` tag value" e = missing_unexpected structTag L i
  /\ logged Warn "Use of deprecated configuration key" e = deprecated_used structTag L i.
Proof.
  unfold check_events, Spec.missing_fatal, Spec.fatal_required, missing_warn,
    missing_unexpected, deprecated_used.
  destruct (nth_error (fields cfg) i) as [a|]; [|cbn; auto].
  destruct (ZeroOrNil a); cbn [andb negb]; repeat split; tag_cases.
Qed.

(** X10.  [CheckMissingAndDepreciated] returns an error exactly when it logs
    "Configuration key not set" at the critical level.  An empty field tagged
    [missing:"warn"], an empty field whose [missing] tag has any other value,
    and a set field with a [deprecated] tag are each logged as a warning,
    exactly when there is such a field, and never make the check fail. *)
Theorem CheckMissing_logs (structTag : nat -> StructTag) (cfg : Config) (t : trace) :
  let idx := seq 0 NumField in
  let L := fields cfg in
  exists err e,
    CheckMissingAndDepreciated structTag cfg t = Done err (t ++ e)
    /\ quiet e = true
    /\ logged Crit "Configuration key not set" e
       = existsb (Spec.missing_fatal structTag L) idx
    /\ logged Warn "Configuration key not set" e = existsb (missing_warn structTag L) idx
    /\ logged Warn "Unexpected `missing` tag value" e
       = existsb (missing_unexpected structTag L) idx
    /\ logged Warn "Use of deprecated configuration key" e
       = existsb (deprecated_used structTag L) idx
    /\ (err = None <-> logged Crit "Configuration key not set" e = false).
Proof.
  intros idx L.
  assert (R : Forall (fun i => i < NumField) idx).
  { apply Forall_forall. intros i Hi. apply in_seq in Hi. unfold NumField in *. lia. }
  pose proof (CheckMissing_loop_events structTag cfg idx R [] t) as E.
  destruct (CheckMissing_run structTag cfg t) as [e' [E' Q']].
  assert (X : CheckMissingAndDepreciated structTag cfg t
              = Done (Spec.missing_error structTag (fields cfg))
                     (t ++ flat_map (check_events structTag cfg) idx)).
  { rewrite E'. unfold CheckMissingAndDepreciated in E'.
    rewrite (bind_Done _ _ _ _ _ E) in E'.
    destruct (Nat.ltb 0 _) in E'; apply Done_inj in E'; destruct E' as [_ <-];
      reflexivity. }
  assert (LG : forall lvl msg (p : nat -> bool),
             (forall i, logged lvl msg (check_events structTag cfg i) = p i) ->
             logged lvl msg (flat_map (check_events structTag cfg) idx) = existsb p idx).
  { intros lvl msg p Hp. rewrite logged_flat_map. apply existsb_pointwise.
    intros i. apply Hp. }
  assert (C : logged Crit "Configuration key not set"
                     (flat_map (check_events structTag cfg) idx)
              = existsb (Spec.missing_fatal structTag L) idx).
  { apply LG. intros i. apply (check_events_logged structTag cfg i). }
  exists (Spec.missing_error structTag (fields cfg)),
    (flat_map (check_events structTag cfg) idx).
  split; [exact X|]. split.
  { rewrite E' in X. apply Done_inj in X. destruct X as [_ X].
    apply app_inv_head in X. subst e'. exact Q'. }
  split; [exact C|].
  split; [apply LG; intros i; apply (check_events_logged structTag cfg i)|].
  split; [apply LG; intros i; apply (check_events_logged structTag cfg i)|].
  split; [apply LG; intros i; apply (check_events_logged structTag cfg i)|].
  rewrite C. unfold Spec.missing_error, Spec.fatal_list.
  rewrite fields_length. fold idx. fold L.
  destruct (filter (Spec.missing_fatal structTag L) idx) as [|j l] eqn:F.
  - split; [intros _|reflexivity].
    destruct (existsb (Spec.missing_fatal structTag L) idx) eqn:X1; auto.
    apply existsb_exists in X1. destruct X1 as [j [Hj Mj]].
    assert (I : In j (filter (Spec.missing_fatal structTag L) idx))
      by (apply filter_In; auto).
    rewrite F in I. destruct I.
  - split; [discriminate|]. intros X1. exfalso.
    assert (I : In j (filter (Spec.missing_fatal structTag L) idx))
      by (rewrite F; left; auto).
    apply filter_In in I. destruct I as [Hj Mj].
    assert (X2 : existsb (Spec.missing_fatal structTag L) idx = true)
      by (apply existsb_exists; eauto).
    congruence.
Qed.

(** * Trimming twice *)

Lemma trimLeft_leading (l : list ascii) :
  trimLeft l = match leading l with
               | 0 => l
               | k => trimLeft (skipn k l)
               end.
Proof.
  destruct l as [|c [|d [|e r]]]; [reflexivity| | |].
  - change (trimLeft [c]) with (if asciiSpace c then trimLeft [] else [c]).
    unfold leading. destruct (asciiSpace c); reflexivity.
  - change (trimLeft [c; d])
      with (if asciiSpace c then trimLeft [d]
            else if space2 c d then trimLeft [] else [c; d]).
    unfold leading. destruct (asciiSpace c); [reflexivity|].
    destruct (space2 c d); reflexivity.
  - change (trimLeft (c :: d :: e :: r))
      with (if asciiSpace c then trimLeft (d :: e :: r)
            else if space2 c d then trimLeft (e :: r)
                 else if space3 c d e then trimLeft r else c :: d :: e :: r).
    unfold leading. destruct (asciiSpace c); [reflexivity|].
    destruct (space2 c d); [reflexivity|].
    destruct (space3 c d e); reflexivity.
Qed.

Lemma trimRightRev_trailing (l : list ascii) :
  trimRightRev l = match trailing l with
                   | 0 => l
                   | k => trimRightRev (skipn k l)
                   end.
Proof.
  destruct l as [|e [|d [|c r]]]; [reflexivity| | |].
  - change (trimRightRev [e]) with (if asciiSpace e then trimRightRev [] else [e]).
    unfold trailing. destruct (asciiSpace e); reflexivity.
  - change (trimRightRev [e; d])
      with (if asciiSpace e then trimRightRev [d]
            else if space2 d e then trimRightRev [] else [e; d]).
    unfold trailing. destruct (asciiSpace e); [reflexivity|].
    destruct (space2 d e); reflexivity.
  - change (trimRightRev (e :: d :: c :: r))
      with (if asciiSpace e then trimRightRev (d :: c :: r)
            else if space2 d e then trimRightRev (c :: r)
                 else if space3 c d e then trimRightRev r else e :: d :: c :: r).
    unfold trailing. destruct (asciiSpace e); [reflexivity|].
    destruct (space2 d e); [reflexivity|].
    destruct (space3 c d e); reflexivity.
Qed.

Lemma leading_le (l : list ascii) : leading l <= List.length l.
Proof.
  destruct l as [|c [|d [|e r]]]; unfold leading; simpl;
    repeat match goal with |- context [if ?b then _ else _] => destruct b end; lia.
Qed.

Lemma trailing_le (l : list ascii) : trailing l <= List.length l.
Proof.
  destruct l as [|c [|d [|e r]]]; unfold trailing; simpl;
    repeat match goal with |- context [if ?b then _ else _] => destruct b end; lia.
Qed.

Lemma leading_trimLeft (l : list ascii) : leading (trimLeft l) = 0.
Proof.
  remember (List.length l) as n eqn:Hn. revert l Hn.
  induction n as [n IH] using lt_wf_ind. intros l Hn.
  rewrite trimLeft_leading. destruct (leading l) as [|k] eqn:K; [exact K|].
  apply (IH (List.length (skipn (S k) l))); [|reflexivity].
  rewrite length_skipn. pose proof (leading_le l). lia.
Qed.

Lemma trailing_trimRightRev (l : list ascii) : trailing (trimRightRev l) = 0.
Proof.
  remember (List.length l) as n eqn:Hn. revert l Hn.
  induction n as [n IH] using lt_wf_ind. intros l Hn.
  rewrite trimRightRev_trailing. destruct (trailing l) as [|k] eqn:K; [exact K|].
  apply (IH (List.length (skipn (S k) l))); [|reflexivity].
  rewrite length_skipn. pose proof (trailing_le l). lia.
Qed.

Lemma trimRightRev_skipn (l : list ascii) : exists k, trimRightRev l = skipn k l.
Proof.
  remember (List.length l) as n eqn:Hn. revert l Hn.
  induction n as [n IH] using lt_wf_ind. intros l Hn.
  rewrite trimRightRev_trailing. destruct (trailing l) as [|k] eqn:K.
  - exists 0. reflexivity.
  - destruct (IH (List.length (skipn (S k) l))) with (l := skipn (S k) l)
      as [j Hj]; [|reflexivity|].
    + rewrite length_skipn. pose proof (trailing_le l). lia.
    + exists (j + S k). rewrite Hj. apply skipn_skipn.
Qed.

Lemma leading_firstn (m : nat) (l : list ascii) :
  leading l = 0 -> leading (firstn m l) = 0.
Proof.
  destruct l as [|c [|d [|e r]]]; destruct m as [|[|[|m]]]; unfold leading; simpl;
    auto;
    repeat match goal with
           | |- context [if ?b then _ else _] => destruct b
           end; auto; discriminate.
Qed.

Lemma TrimSpace_idempotent (s : string) : TrimSpace (TrimSpace s) = TrimSpace s.
Proof.
  unfold TrimSpace. rewrite list_ascii_of_string_of_list_ascii.
  set (x := trimLeft (list_ascii_of_string s)).
  destruct (trimRightRev_skipn (rev x)) as [k Hk].
  assert (Y : rev (trimRightRev (rev x)) = firstn (List.length x - k) x).
  { rewrite Hk, skipn_rev, rev_involutive. reflexivity. }
  assert (L : trimLeft (rev (trimRightRev (rev x))) = rev (trimRightRev (rev x))).
  { rewrite trimLeft_leading, Y, leading_firstn; [reflexivity|].
    apply leading_trimLeft. }
  rewrite L, rev_involutive.
  rewrite (trimRightRev_trailing (trimRightRev (rev x))), trailing_trimRightRev.
  reflexivity.
Qed.

Lemma trim_field_idempotent (structTag : nat -> StructTag) (i : nat) (v : value) :
  Spec.trim_field structTag i (Spec.trim_field structTag i v)
  = Spec.trim_field structTag i v.
Proof.
  destruct v; simpl; auto.
  destruct (Spec.trim_annotated structTag i) eqn:T; simpl; rewrite T; auto.
  rewrite TrimSpace_idempotent. reflexivity.
Qed.

(** X11.  Trimming is idempotent: [TrimWhitespace] run on the record it has
    produced returns that record unchanged. *)
Theorem TrimWhitespace_idempotent (structTag : nat -> StructTag) (cfg : Config)
        (t : trace) :
  exists c e,
    TrimWhitespace structTag cfg t = Done c (t ++ e)
    /\ forall t', exists e', TrimWhitespace structTag c t' = Done c (t' ++ e').
Proof.
  destruct (TrimWhitespace_total structTag cfg) as [c [F E]].
  destruct (TrimWhitespace_total structTag c) as [c' [F' E']].
  exists c. eexists. split; [apply E|].
  intros t'. eexists. rewrite E'. f_equal.
  apply fields_inj. rewrite F', F. unfold Spec.trim.
  apply nth_error_ext. intros j. rewrite !nth_error_imap.
  destruct (nth_error (fields cfg) j); simpl; auto.
  rewrite trim_field_idempotent. reflexivity.
Qed.

(** * FileConfig's migration of the legacy key *)

(** X12.  Whatever the file holds and whatever the decoder makes of it, the
    record [FileConfig] returns never has the legacy [ClusterArn] set with
    [Cluster] empty. *)
Theorem FileConfig_legacy_key (json : Json) (w : World) (t : trace) :
  exists c e,
    FileConfig json w t = Done c (t ++ e)
    /\ (ClusterArn c <> "" -> Cluster c <> "").
Proof.
  destruct (FileConfig_run json w) as [file [ef [EF _]]].
  exists file, ef. split; [apply EF|].
  specialize (EF []). unfold FileConfig in EF.
  destruct (file_at w _) as [err|err|data].
  - apply Done_inj in EF. destruct EF as [<- _]. auto.
  - unfold bind, emit, log_Error, ret in EF.
    apply Done_inj in EF. destruct EF as [<- _]. auto.
  - unfold bind, emit in EF.
    destruct (String.eqb (TrimSpace data) "").
    + apply Done_inj in EF. destruct EF as [<- _]. auto.
    + destruct (json_Unmarshal json data emptyConfig) as [config err].
      assert (M : file = if ZeroOrNil (VString (Cluster config))
                            && negb (ZeroOrNil (VString (ClusterArn config)))
                         then with_Cluster config (ClusterArn config) else config).
      { destruct err; unfold bind, log_Error, emit, ret in EF;
          destruct (ZeroOrNil (VString (Cluster config))
                    && negb (ZeroOrNil (VString (ClusterArn config))));
          apply Done_inj in EF; destruct EF as [<- _]; reflexivity. }
      rewrite M. cbn [ZeroOrNil].
      destruct (String.eqb (Cluster config) "") eqn:ZC; cbn [andb].
      * destruct (String.eqb (ClusterArn config) "") eqn:ZA; cbn [negb].
        -- apply String.eqb_eq in ZA. intros H. contradiction.
        -- intros H. exact H.
      * intros _ H. rewrite H in ZC. discriminate.
Qed.

(** * The version file generator *)

Module VersionGenProofs.
Import VersionGen.

Lemma TrimSpace_stable (s : string) : TrimSpace (TrimSpace s) = TrimSpace s.
Proof. apply TrimSpace_idempotent. Qed.

(** X13.  The version and the hash [main] puts into version.go never begin
    or end with white space: the line ends of the VERSION file and of git's
    output are trimmed away, and the fallback hash is the word UNKNOWN. *)
Theorem main_info_trimmed (h : Host) :
  let info := fst (main h) in
  TrimSpace (Version info) = Version info
  /\ TrimSpace (Hash info) = Hash info.
Proof.
  unfold main, gitDirty, gitHash.
  destruct (String.eqb (TrimSpace (env h "ECS_RELEASE")) "cleanbuild");
    destruct (String.eqb (env h "ECS_UNKNOWN_VERSION") "");
    cbn [fst Version Hash Dirty]; (split; [apply TrimSpace_stable|]);
    try reflexivity;
    destruct (git_rev_parse h); try reflexivity; apply TrimSpace_stable.
Qed.

(** X14.  [main] marks the build clean only if ECS_RELEASE, trimmed, is
    cleanbuild and [git status] ran and succeeded; it runs [git status] only
    in a cleanbuild and [git rev-parse] only when ECS_UNKNOWN_VERSION is
    empty, so that with ECS_UNKNOWN_VERSION set and no cleanbuild git is
    never run and the file says dirty and UNKNOWN. *)
Theorem main_git_runs (h : Host) :
  let info := fst (main h) in
  let ev := snd (main h) in
  let cleanbuild := String.eqb (TrimSpace (env h "ECS_RELEASE")) "cleanbuild" in
  let with_hash := String.eqb (env h "ECS_UNKNOWN_VERSION") "" in
  git_runs ev = (if cleanbuild then 1 else 0) + (if with_hash then 1 else 0)
  /\ ran_git_status ev = cleanbuild
  /\ Dirty info = negb (cleanbuild && match git_status h with
                                      | None => true
                                      | Some _ => false
                                      end)
  /\ (with_hash = false -> Hash info = "UNKNOWN").
Proof.
  unfold main, gitDirty, gitHash.
  destruct (String.eqb (TrimSpace (env h "ECS_RELEASE")) "cleanbuild");
    destruct (String.eqb (env h "ECS_UNKNOWN_VERSION") "");
    destruct (git_status h); destruct (create h); destruct (execute h);
    cbn; repeat split; auto; discriminate.
Qed.


Example main_release :
  fst (main (sample_host "cleanbuild" ""))
  = mkInfo "1.5.0" false "ab12cd3".
Proof. reflexivity. Qed.

Example main_committed_file :
  fst (main (sample_host "" "true")) = mkInfo "1.5.0" true "UNKNOWN"
  /\ git_runs (snd (main (sample_host "" "true"))) = 0.
Proof. split; reflexivity. Qed.

End VersionGenProofs.

(** * NewConfig with nothing configured *)

Lemma trim_field_empty (structTag : nat -> StructTag) (i : nat) :
  Spec.trim_field structTag i (VString "") = VString "".
Proof. unfold Spec.trim_field. destruct (Spec.trim_annotated structTag i); reflexivity. Qed.

Lemma EnvironmentConfig_no_env (json : Json) (w : World) :
  (forall n, Getenv w n = "") ->
  EnvironmentConfig json w []
  = Done (mkConfig "" "" "" "" "" None None "" false "" (Some []) false "" false ""
                   0 "" "") [].
Proof.
  intros H. unfold EnvironmentConfig, Decoder_Decode. rewrite !H. reflexivity.
Qed.

(** X16.  With no variable set in the environment and no configuration file
    to open, [NewConfig] returns the default record with the region of the
    instance identity document (no region if the metadata call fails),
    trimmed when the region field has the [trim] tag. *)
Theorem NewConfig_nothing_configured
        (structTag : nat -> StructTag) (json : Json) (w : World) (err : error) :
  (forall n, Getenv w n = "") ->
  file_at w default_path = OpenFails err ->
  exists cfg r e,
    (forall t, NewConfig structTag json w t = Done (cfg, r) (t ++ e))
    /\ cfg = with_AWSRegion DefaultConfig
               (let region := match identity_document w with
                              | inl _ => ""
                              | inr x => x
                              end in
                if Spec.trim_annotated structTag 4 then TrimSpace region else region).
Proof.
  intros HG HF.
  destruct (NewConfig_unfolded structTag json w)
    as [ctmp [file [ef [merged [acc [e1 [c1 [cfg [e2 H]]]]]]]]].
  destruct H as [E0 [_ [EF [_ [_ [FM [HM [G1 [G2 [_ E]]]]]]]]]].
  exists cfg, (Spec.missing_error structTag (fields c1)),
    (env_events json w ++ e1 ++ e2).
  split; [exact E|].
  pose proof (E0 []) as X0. rewrite (EnvironmentConfig_no_env json w HG) in X0.
  apply Done_inj in X0. destruct X0 as [<- _].
  assert (XF : file = emptyConfig).
  { pose proof (EF []) as X. unfold FileConfig in X. rewrite HG in X.
    change (DefaultIfBlank "" "/etc/ecs_container_agent/config.json")
      with default_path in X.
    rewrite HF in X. unfold bind, emit, ret in X.
    apply Done_inj in X. destruct X as [<- _]. reflexivity. }
  subst file.
  assert (XM : merged = emptyConfig) by (apply fields_inj; rewrite FM; reflexivity).
  subst merged.
  change (String.eqb (AWSRegion emptyConfig) "") with true in HM. cbv iota in HM.
  destruct HM as [md [em [EMD [_ [_ [FA _]]]]]].
  destruct (EC2MetadataConfig_run w) as [md' [em' [EMD' [_ [_ MD]]]]].
  pose proof (EMD []) as X. rewrite (EMD' []) in X.
  apply Done_inj in X. destruct X as [X _]. rewrite MD in X. subst md. clear EMD EMD' MD.
  set (region := match identity_document w with inl _ => "" | inr x => x end).
  assert (XA : acc = with_AWSRegion emptyConfig region).
  { apply fields_inj. rewrite FA. unfold region.
    destruct (identity_document w); reflexivity. }
  subst acc.
  assert (X1 : c1 = with_AWSRegion emptyConfig
                      (if Spec.trim_annotated structTag 4 then TrimSpace region
                       else region)).
  { apply fields_inj. rewrite G1. unfold Spec.trim.
    cbn -[Spec.trim_field TrimSpace].
    rewrite !trim_field_empty. unfold Spec.trim_field.
    destruct (Spec.trim_annotated structTag 4); reflexivity. }
  subst c1. apply fields_inj. rewrite G2.
  cbn -[Spec.merge_field TrimSpace].
  rewrite !merge_string_empty. reflexivity.
Qed.

Lemma NewConfig_nothing_configured_witness :
  exists cfg r e,
    (forall t, NewConfig tags_region_fatal sample_json (world_of_env no_env) t
               = Done (cfg, r) (t ++ e))
    /\ cfg = with_AWSRegion DefaultConfig "us-east-1".
Proof.
  apply (NewConfig_nothing_configured tags_region_fatal sample_json
           (world_of_env no_env) (otherError "open: no such file or directory"));
    reflexivity.
Defined.
